(** * calculator.py: a safe evaluator of arithmetic expressions

    A shallow embedding of [src/calculator.py] and of the part of the Python
    host it runs on, followed by the properties of the evaluation pipeline
    [preprocess_expression] -> [ast.parse] -> [SafeEvaluator.visit].

    Layout:
    - [Py]            exceptions, results, runtime values;
    - [PyNumber]      arithmetic of [int], [float] and [complex];
    - [op]            the functions of the [operator] module used by the tables;
    - [ast]           syntax-tree nodes as the evaluator sees them;
    - [str]           [str.replace] and [str.strip];
    - [SafeEvaluator] the visitor class of the program;
    - [PyParser]      a reference model of [ast.parse(text, mode="eval")];
    - the program's functions [preprocess_expression],
      [evaluate_expression], [repl] and [main], and the theorems.

    The host is CPython 3.8 to 3.13, where the parser builds [ast.Constant]
    nodes and [ast.Num] still exists as a deprecated alias.  A Python [str]
    is modelled by the bytes of its UTF-8 encoding.

    The program's messages are in Russian; the specification names them in
    English:
    - "Деление на ноль недопустимо": division by zero;
    - "Недопустимая бинарная операция: ...": invalid binary operation;
    - "Недопустимая унарная операция: ...": invalid unary operation;
    - "Разрешены только числовые литералы": only numeric literals allowed;
    - "Имена/переменные не разрешены": names or variables are not allowed;
    - "Вызовы функций не разрешены": function calls are not allowed;
    - "Недопустимая конструкция: ...": invalid construct;
    - "Синтаксическая ошибка: ...": syntax error;
    - "Ошибка: ...": error, the prefix [repl] and [main] print.
    The specification's [EvaluationError] and [SyntaxError] are both
    [ValueError] in the program, told apart by the message. *)

From Stdlib Require Import ZArith List String Ascii Bool Lia.
From Stdlib Require Import Floats.
Import ListNotations.

(* ------------------------------------------------------------------ *)
(** * The host: exceptions, results and values *)

Module Py.

(** The exception classes that can leave [evaluate_expression].  The program
    itself raises only [ValueError]; the others are raised by the host.  Only
    the messages the program builds or reads are kept. *)
Inductive exn : Type :=
| ValueError (msg : string)
| SyntaxError (msg : string)
| ZeroDivisionError
| TypeError
| OverflowError
| RecursionError
| MemoryError.

(** A computation returns a value or raises. *)
Inductive result (A : Type) : Type :=
| OK (a : A)
| Raise (e : exn).

Arguments OK {A} a.
Arguments Raise {A} e.

Definition bind {A B : Type} (r : result A) (k : A -> result B) : result B :=
  match r with
  | OK a => k a
  | Raise e => Raise e
  end.

(** The objects evaluation can produce: [None], [bool], [int], [float] and
    [complex] (the last only as a power of a negative base). *)
Inductive value : Type :=
| VNone
| VBool (b : bool)
| VInt (z : Z)
| VFloat (f : float)
| VComplex (re im : float).

(** The payload of an [ast.Constant] node. *)
Inductive constant : Type :=
| CInt (z : Z)
| CFloat (f : float)
| CComplex (re im : float)
| CStr (s : string)
| CBytes (s : string)
| CBool (b : bool)
| CNone
| CEllipsis.

(** The transcendental part of the C library, which no definition below can
    compute: [pow] on doubles, and the complex power built from [hypot],
    [atan2], [exp], [log], [sin] and [cos].  Everything else is computed. *)
Record libm : Type := {
  c_pow : float -> float -> float;
  complex_pow : float * float -> float * float -> result (float * float)
}.

Definition is_float (v : value) : bool :=
  match v with VFloat _ => true | _ => false end.

(** [int], [bool] or [float]: the real numbers of the numeric tower. *)
Definition is_real (v : value) : bool :=
  match v with VBool _ | VInt _ | VFloat _ => true | _ => false end.

End Py.

Export Py.

Declare Scope py_scope.
Delimit Scope py_scope with py.
Notation "x <- c1 ;; c2" := (Py.bind c1 (fun x => c2))
  (at level 61, c1 at next level, right associativity) : py_scope.
Open Scope py_scope.

(* ------------------------------------------------------------------ *)
(** * Numbers of the host: [int], [float] and [complex] arithmetic *)

Module PyNumber.

Open Scope Z_scope.

(** IEEE 754 binary64. *)
Definition prec : Z := 53.
Definition emax : Z := 1024.

(** The double nearest to an integer (ties to even); infinite past the
    range. *)
Definition float_of_Z (z : Z) : float :=
  SF2Prim (SpecFloat.binary_normalize prec emax z 0 false).

(** [PyLong_AsDouble]: "int too large to convert to float". *)
Definition PyLong_AsDouble (z : Z) : result float :=
  let f := float_of_Z z in
  if is_infinity f then Raise OverflowError else OK f.

(** The double nearest to the rational [a / b], for [a] and [b] not zero.
    The quotient is computed with at least 64 significant bits and a sticky
    bit for the remainder, then rounded once. *)
Definition float_of_ratio (a b : Z) : float :=
  let negative := xorb (a <? 0) (b <? 0) in
  let n := Z.abs a in
  let d := Z.abs b in
  let sh := Z.max 0 (64 + Z.log2 d - Z.log2 n) in
  let q := (n * 2 ^ sh) / d in
  let r := (n * 2 ^ sh) mod d in
  let m := 2 * q + (if r =? 0 then 0 else 1) in
  SF2Prim (SpecFloat.binary_normalize prec emax
             (if negative then - m else m) (- sh - 1) false).

(** [long_true_divide]: the correctly rounded quotient of two ints. *)
Definition long_true_divide (a b : Z) : result float :=
  if b =? 0 then Raise ZeroDivisionError
  else if a =? 0 then OK (if b <? 0 then (-0)%float else 0%float)
  else
    let f := float_of_ratio a b in
    if is_infinity f then Raise OverflowError else OK f.

(** C's [floor], exact on doubles. *)
Definition c_floor (x : float) : float :=
  match Prim2SF x with
  | S754_finite s m e =>
      if 0 <=? e then x
      else
        let q := (if s then Z.neg m else Z.pos m) / 2 ^ (- e) in
        if q =? 0 then 0%float else float_of_Z q
  | _ => x
  end.

(** C's [fmod], exact on doubles: the remainder has the sign of [x]. *)
Definition c_fmod (x y : float) : float :=
  match Prim2SF x, Prim2SF y with
  | S754_nan, _ | _, S754_nan => nan
  | S754_infinity _, _ => nan
  | _, S754_zero _ => nan
  | _, S754_infinity _ => x
  | S754_zero _, _ => x
  | S754_finite sx mx ex, S754_finite _ my ey =>
      let e := Z.min ex ey in
      let r := (Z.pos mx * 2 ^ (ex - e)) mod (Z.pos my * 2 ^ (ey - e)) in
      if r =? 0 then (if sx then (-0)%float else 0%float)
      else SF2Prim (SpecFloat.binary_normalize prec emax
                      (if sx then - r else r) e false)
  end.

(** [copysign(0.0, x)]. *)
Definition copysign_zero (x : float) : float :=
  if get_sign x then (-0)%float else 0%float.

Open Scope float_scope.

(** [DOUBLE_IS_ODD_INTEGER] of floatobject.c. *)
Definition DOUBLE_IS_ODD_INTEGER (x : float) : bool :=
  c_fmod (abs x) 2 =? 1.

(** [float_div]. *)
Definition float_div (a b : float) : result value :=
  if b =? 0 then Raise ZeroDivisionError else OK (VFloat (a / b)).

(** [float_rem]: the remainder takes the sign of the divisor. *)
Definition float_rem (vx wx : float) : result value :=
  if wx =? 0 then Raise ZeroDivisionError
  else
    let md := c_fmod vx wx in
    OK (VFloat
          (if md =? 0 then copysign_zero wx
           else if negb (Bool.eqb (wx <? 0) (md <? 0)) then md + wx
           else md)).

(** [float_floor_div], through [_float_div_mod]. *)
Definition float_floor_div (vx wx : float) : result value :=
  if wx =? 0 then Raise ZeroDivisionError
  else
    let md := c_fmod vx wx in
    let div := (vx - md) / wx in
    let div :=
      if md =? 0 then div
      else if negb (Bool.eqb (wx <? 0) (md <? 0)) then div - 1
      else div in
    OK (VFloat
          (if div =? 0 then copysign_zero (vx / wx)
           else
             let floordiv := c_floor div in
             if 0.5 <? div - floordiv then floordiv + 1 else floordiv)).

Section WithLibm.

Variable m : libm.

(** [float_pow]: the special cases are settled here, the C library's [pow]
    sees only a finite positive base other than 1 and a finite exponent
    other than 0.  A negative base with a fractional exponent goes to the
    complex power. *)
Definition float_pow (iv iw : float) : result value :=
  if iw =? 0 then OK (VFloat 1)
  else if is_nan iv then OK (VFloat iv)
  else if is_nan iw then OK (VFloat (if iv =? 1 then 1 else iw))
  else if is_infinity iw then
    let av := abs iv in
    if av =? 1 then OK (VFloat 1)
    else if Bool.eqb (0 <? iw) (1 <? av) then OK (VFloat (abs iw))
    else OK (VFloat 0)
  else if is_infinity iv then
    let odd := DOUBLE_IS_ODD_INTEGER iw in
    if 0 <? iw then OK (VFloat (if odd then iv else abs iv))
    else OK (VFloat (if odd then copysign_zero iv else 0))
  else if iv =? 0 then
    if iw <? 0 then Raise ZeroDivisionError
    else OK (VFloat (if DOUBLE_IS_ODD_INTEGER iw then iv else 0))
  else if (iv <? 0) && negb (iw =? c_floor iw) then
    c <- complex_pow m (iv, 0) (iw, 0) ;; OK (VComplex (fst c) (snd c))
  else
    let negate_result := (iv <? 0) && DOUBLE_IS_ODD_INTEGER iw in
    let av := abs iv in
    if av =? 1 then OK (VFloat (if negate_result then -1 else 1))
    else
      let ix := c_pow m av iw in
      if is_infinity ix then Raise OverflowError
      else OK (VFloat (if negate_result then - ix else ix)).

End WithLibm.

(** [_Py_c_quot], with [errno = EDOM] read as [ZeroDivisionError] the way
    [complex_div] does. *)
Definition c_quot (a b : float * float) : result value :=
  let '(ar, ai) := a in
  let '(br, bi) := b in
  let abs_breal := abs br in
  let abs_bimag := abs bi in
  if abs_bimag <=? abs_breal then
    if abs_breal =? 0 then Raise ZeroDivisionError
    else
      let ratio := bi / br in
      let denom := br + bi * ratio in
      OK (VComplex ((ar + ai * ratio) / denom) ((ai - ar * ratio) / denom))
  else if abs_breal <=? abs_bimag then
    let ratio := br / bi in
    let denom := br * ratio + bi in
    OK (VComplex ((ar * ratio + ai) / denom) ((ai * ratio - ar) / denom))
  else OK (VComplex nan nan).

(** [_Py_c_prod]. *)
Definition c_prod (a b : float * float) : result value :=
  let '(ar, ai) := a in
  let '(br, bi) := b in
  OK (VComplex (ar * br - ai * bi) (ar * bi + ai * br)).

Definition c_sum (a b : float * float) : result value :=
  OK (VComplex (fst a + fst b) (snd a + snd b)).

Definition c_diff (a b : float * float) : result value :=
  OK (VComplex (fst a - fst b) (snd a - snd b)).

(** The value of a [bool] as an [int]. *)
Definition Z_of_bool (b : bool) : Z := if b then 1%Z else 0%Z.

(** [CONVERT_TO_DOUBLE]: a real operand as a double; an [int] past the
    range of doubles raises. *)
Definition to_double (v : value) : result float :=
  match v with
  | VBool b => PyLong_AsDouble (Z_of_bool b)
  | VInt z => PyLong_AsDouble z
  | VFloat f => OK f
  | _ => Raise TypeError
  end.

(** [TO_COMPLEX]. *)
Definition to_complex (v : value) : result (float * float) :=
  match v with
  | VComplex re im => OK (re, im)
  | _ => f <- to_double v ;; OK (f, 0)
  end.

(** Binary arithmetic along the numeric tower: two ints stay ints, a float
    operand makes both floats, a complex operand makes both complex.  A
    type with no slot for the operation ([None] always, [complex] for [//]
    and [%]) raises [TypeError] before any conversion. *)
Definition coerce
    (on_int : Z -> Z -> result value)
    (on_float : float -> float -> result value)
    (on_complex : option (float * float -> float * float -> result value))
    (a b : value) : result value :=
  match a, b with
  | VNone, _ | _, VNone => Raise TypeError
  | VComplex _ _, _ | _, VComplex _ _ =>
      match on_complex with
      | None => Raise TypeError
      | Some f => x <- to_complex a ;; y <- to_complex b ;; f x y
      end
  | VFloat _, _ | _, VFloat _ =>
      x <- to_double a ;; y <- to_double b ;; on_float x y
  | VBool x, VBool y => on_int (Z_of_bool x) (Z_of_bool y)
  | VBool x, VInt y => on_int (Z_of_bool x) y
  | VInt x, VBool y => on_int x (Z_of_bool y)
  | VInt x, VInt y => on_int x y
  end.

End PyNumber.

(* ------------------------------------------------------------------ *)
(** * [import operator as op] *)

Module op.

Import PyNumber.

Section WithLibm.

Variable m : libm.

Definition add : value -> value -> result value :=
  coerce (fun x y => OK (VInt (x + y)))
         (fun x y => OK (VFloat (x + y)))
         (Some c_sum).

Definition sub : value -> value -> result value :=
  coerce (fun x y => OK (VInt (x - y)))
         (fun x y => OK (VFloat (x - y)))
         (Some c_diff).

Definition mul : value -> value -> result value :=
  coerce (fun x y => OK (VInt (x * y)))
         (fun x y => OK (VFloat (x * y)))
         (Some c_prod).

(** [/]: two ints give the correctly rounded float quotient. *)
Definition truediv : value -> value -> result value :=
  coerce (fun x y => f <- long_true_divide x y ;; OK (VFloat f))
         float_div
         (Some c_quot).

(** [//]: on ints the quotient rounded toward minus infinity, which is
    [Z.div]. *)
Definition floordiv : value -> value -> result value :=
  coerce (fun x y =>
            if (y =? 0)%Z then Raise ZeroDivisionError
            else OK (VInt (x / y)))
         float_floor_div
         None.

(** [%]: on ints the remainder with the sign of the divisor, which is
    [Z.modulo]. *)
Definition mod_ : value -> value -> result value :=
  coerce (fun x y =>
            if (y =? 0)%Z then Raise ZeroDivisionError
            else OK (VInt (x mod y)))
         float_rem
         None.

(** [**]: an int to a negative int power is computed on floats. *)
Definition pow : value -> value -> result value :=
  coerce (fun x y =>
            if (y <? 0)%Z then
              a <- PyLong_AsDouble x ;; b <- PyLong_AsDouble y ;;
              float_pow m a b
            else OK (VInt (x ^ y)))
         (float_pow m)
         (Some (fun x y =>
                  c <- complex_pow m x y ;; OK (VComplex (fst c) (snd c)))).

End WithLibm.

(** Unary plus: a [bool] comes back as an [int]. *)
Definition pos (v : value) : result value :=
  match v with
  | VNone => Raise TypeError
  | VBool b => OK (VInt (Z_of_bool b))
  | _ => OK v
  end.

Definition neg (v : value) : result value :=
  match v with
  | VNone => Raise TypeError
  | VBool b => OK (VInt (- Z_of_bool b))
  | VInt z => OK (VInt (- z))
  | VFloat f => OK (VFloat (- f))
  | VComplex re im => OK (VComplex (- re) (- im))
  end.

End op.

(* ------------------------------------------------------------------ *)
(** * [import ast]: the nodes of a syntax tree *)

Module ast.

(** A node is an instance of a class of the [ast] module.  The classes the
    program names have a constructor each; an instance of any other class
    ([Attribute], [Compare], [BoolOp], [List], [Lambda], [Not], [MatMult],
    ...) is [Other] with its class name and its child nodes in field order.
    The fields hold nodes without regard to the grammar's typing, as in
    Python: a tree built by hand can put any node anywhere.

    [ast.Num] has no constructor: since Python 3.8 the parser builds
    [Constant] nodes and [ast.Num(...)] itself returns a [Constant], so no
    node has [Num] as its class and [visit_Num] is never selected. *)
#[warnings="-register-all"]
Inductive node : Type :=
| Expression (body : node)
| Expr (value : node)
| BinOp (left : node) (op : node) (right : node)
| UnaryOp (op : node) (operand : node)
| Constant (value : constant)
| Name (id : string) (ctx : node)
| Call (func : node) (args : list node) (keywords : list node)
| Load
| Add
| Sub
| Mult
| Div
| FloorDiv
| Mod
| Pow
| UAdd
| USub
| Other (class_name : string) (fields : list node).

(** [type(node).__name__]. *)
Definition __name__ (n : node) : string :=
  match n with
  | Expression _ => "Expression"
  | Expr _ => "Expr"
  | BinOp _ _ _ => "BinOp"
  | UnaryOp _ _ => "UnaryOp"
  | Constant _ => "Constant"
  | Name _ _ => "Name"
  | Call _ _ _ => "Call"
  | Load => "Load"
  | Add => "Add"
  | Sub => "Sub"
  | Mult => "Mult"
  | Div => "Div"
  | FloorDiv => "FloorDiv"
  | Mod => "Mod"
  | Pow => "Pow"
  | UAdd => "UAdd"
  | USub => "USub"
  | Other class_name _ => class_name
  end.

(** The child nodes, in the order [ast.iter_fields] yields them. *)
Definition iter_child_nodes (n : node) : list node :=
  match n with
  | Expression body => [body]
  | Expr value => [value]
  | BinOp l o r => [l; o; r]
  | UnaryOp op operand => [op; operand]
  | Name _ ctx => [ctx]
  | Call func args keywords => func :: args ++ keywords
  | Other _ fields => fields
  | _ => []
  end.

Section NodeVisitor.

(** [self.visit], as seen from inside a visitor method. *)
Variable visit : node -> result value.

(** [NodeVisitor.generic_visit]: visits every child in turn, discards what
    the visits return, and returns [None]. *)
Definition generic_visit (n : node) : result value :=
  fold_left (fun acc child => _ <- acc ;; _ <- visit child ;; OK VNone)
            (iter_child_nodes n) (OK VNone).

End NodeVisitor.

End ast.

Import ast.

(* ------------------------------------------------------------------ *)
(** * [str]: the two string methods the program calls *)

Module str.

Open Scope string_scope.

(** A string literal given by its bytes. *)
Definition bytes (l : list nat) : string :=
  string_of_list_ascii (map ascii_of_nat l).

(** [s.replace(old, new)] scans from the left and replaces every
    occurrence of [old] that does not overlap the previous one.  [skip]
    counts the characters of the current occurrence still to be dropped. *)
Fixpoint replace_from (skip : nat) (old new s : string) : string :=
  match s with
  | EmptyString => EmptyString
  | String c rest =>
      match skip with
      | S k => replace_from k old new rest
      | O =>
          if prefix old s
          then new ++ replace_from (length old - 1) old new rest
          else String c (replace_from 0 old new rest)
      end
  end.

(** An empty [old] matches between any two characters and at both ends. *)
Fixpoint interleave (new s : string) : string :=
  match s with
  | EmptyString => new
  | String c rest => new ++ String c (interleave new rest)
  end.

Definition replace (s old new : string) : string :=
  match old with
  | EmptyString => interleave new s
  | _ => replace_from 0 old new s
  end.

(** The characters [str.isspace] accepts, in UTF-8: U+0009..U+000D,
    U+001C..U+0020, U+0085, U+00A0, U+1680, U+2000..U+200A, U+2028, U+2029,
    U+202F, U+205F and U+3000. *)
Definition whitespace : list string :=
  map bytes
    [[9]; [10]; [11]; [12]; [13]; [28]; [29]; [30]; [31]; [32];
     [194; 133]; [194; 160]; [225; 154; 128];
     [226; 128; 128]; [226; 128; 129]; [226; 128; 130]; [226; 128; 131];
     [226; 128; 132]; [226; 128; 133]; [226; 128; 134]; [226; 128; 135];
     [226; 128; 136]; [226; 128; 137]; [226; 128; 138];
     [226; 128; 168]; [226; 128; 169]; [226; 128; 175];
     [226; 129; 159]; [227; 128; 128]]%nat.

(** [s] without its prefix [p], when it has it. *)
Fixpoint drop_prefix (p s : string) : option string :=
  match p with
  | EmptyString => Some s
  | String a p' =>
      match s with
      | EmptyString => None
      | String b s' => if Ascii.eqb a b then drop_prefix p' s' else None
      end
  end.

(** [s] without the first of the characters [chars] it starts with. *)
Fixpoint drop_char (chars : list string) (s : string) : option string :=
  match chars with
  | [] => None
  | w :: chars' =>
      match drop_prefix w s with
      | Some r => Some r
      | None => drop_char chars' s
      end
  end.

(** Drops leading characters of [chars]; [fuel] bounds the number dropped
    and is the length of the string where it is called. *)
Fixpoint lstrip_from (fuel : nat) (chars : list string) (s : string)
  : string :=
  match fuel with
  | O => s
  | S fuel' =>
      match drop_char chars s with
      | Some r => lstrip_from fuel' chars r
      | None => s
      end
  end.

Definition reverse (s : string) : string :=
  string_of_list_ascii (rev (list_ascii_of_string s)).

Definition lstrip (s : string) : string :=
  lstrip_from (length s) whitespace s.

Definition rstrip (s : string) : string :=
  reverse (lstrip_from (length s) (map reverse whitespace) (reverse s)).

(** [s.strip()]. *)
Definition strip (s : string) : string := rstrip (lstrip s).

End str.

(* ------------------------------------------------------------------ *)
(** * The operator tables *)

Section Tables.

Variable m : libm.

(** [BINARY_OPERATORS]: a dict from operator class to function.  The key
    looked up is [type(node.op)], the class of the node given here; [None]
    is [operator_type not in BINARY_OPERATORS]. *)
Definition BINARY_OPERATORS (operator_type : node)
  : option (value -> value -> result value) :=
  match operator_type with
  | Add => Some op.add
  | Sub => Some op.sub
  | Mult => Some op.mul
  | Div => Some op.truediv
  | FloorDiv => Some op.floordiv
  | Mod => Some op.mod_
  | Pow => Some (op.pow m)
  | _ => None
  end.

(** [UNARY_OPERATORS]. *)
Definition UNARY_OPERATORS (operator_type : node)
  : option (value -> result value) :=
  match operator_type with
  | UAdd => Some op.pos
  | USub => Some op.neg
  | _ => None
  end.

End Tables.

(* ------------------------------------------------------------------ *)
(** * [class SafeEvaluator(ast.NodeVisitor)] *)

Module SafeEvaluator.

Open Scope string_scope.

Section Methods.

Variable m : libm.

(** [self.visit] as the methods call it: one level further down the
    call stack. *)
Variable visit : node -> result value.

Definition visit_Expression (body : node) : result value :=
  visit body.

(** Both operands are visited, left first, before the operator is looked
    up; of what the operator raises only [ZeroDivisionError] is caught. *)
Definition visit_BinOp (left_ op_ right_ : node) : result value :=
  l <- visit left_ ;;
  r <- visit right_ ;;
  match BINARY_OPERATORS m op_ with
  | Some f =>
      match f l r with
      | Raise ZeroDivisionError =>
          Raise (ValueError "Деление на ноль недопустимо")
      | res => res
      end
  | None =>
      Raise (ValueError ("Недопустимая бинарная операция: " ++ __name__ op_))
  end.

Definition visit_UnaryOp (op_ operand : node) : result value :=
  x <- visit operand ;;
  match UNARY_OPERATORS op_ with
  | Some f => f x
  | None =>
      Raise (ValueError ("Недопустимая унарная операция: " ++ __name__ op_))
  end.

(** [isinstance(node.value, (int, float))] holds of ints, floats and, [bool]
    being a subclass of [int], of [True] and [False]. *)
Definition visit_Constant (node_value : constant) : result value :=
  match node_value with
  | CInt z => OK (VInt z)
  | CFloat f => OK (VFloat f)
  | CBool b => OK (VBool b)
  | _ => Raise (ValueError "Разрешены только числовые литералы")
  end.

Definition visit_Name : result value :=
  Raise (ValueError "Имена/переменные не разрешены").

Definition visit_Call : result value :=
  Raise (ValueError "Вызовы функций не разрешены").

(** [isinstance(node, allowed_nodes)].  [ast.Num] in the tuple adds no
    node: its instances are [Constant]s. *)
Definition allowed_nodes (n : node) : bool :=
  match n with
  | Expression _ | BinOp _ _ _ | UnaryOp _ _ | Constant _
  | Load | Add | Sub | Mult | Div | FloorDiv | Mod | Pow | UAdd | USub
  | Expr _ => true
  | Name _ _ | Call _ _ _ | Other _ _ => false
  end.

(** [super_generic_visit] is [super().generic_visit]. *)
Definition generic_visit (super_generic_visit : node -> result value)
    (n : node) : result value :=
  if negb (allowed_nodes n)
  then Raise (ValueError ("Недопустимая конструкция: " ++ __name__ n))
  else super_generic_visit n.

End Methods.

(** [NodeVisitor.visit]: the method [visit_<class name>] when the class has
    one, [generic_visit] otherwise.

    [frames] is a budget for the depth of the interpreter's stack
    ([sys.getrecursionlimit()] less the depth of the caller), and a call
    with no budget left raises [RecursionError].  Only the calls the
    program's text shows are charged: one unit for [visit], one for the
    method it selects, one for [super().generic_visit].  The interpreter
    spends more, by an amount that depends on its version ([isinstance]
    on a tuple of classes, the instance check of [ast.Num], the generator
    of [ast.iter_fields]), so the budget a given tree needs on a given
    interpreter is larger than the one it needs here.  What carries over
    to the program is what does not depend on the exact charge: what a
    visit returns or raises when the budget is large enough, that a larger
    budget changes nothing but a [RecursionError], and that every budget
    is exhausted by a tree deep enough. *)
Fixpoint visit (m : libm) (frames : nat) (n : node) : result value :=
  match frames with
  | S (S f) =>
      match n with
      | Expression body => visit_Expression (visit m f) body
      | BinOp l o r => visit_BinOp m (visit m f) l o r
      | UnaryOp o x => visit_UnaryOp (visit m f) o x
      | Constant c => visit_Constant c
      | Name _ _ => visit_Name
      | Call _ _ _ => visit_Call
      | _ =>
          generic_visit
            (match f with
             | S f' => ast.generic_visit (visit m f')
             | O => fun _ => Raise RecursionError
             end) n
      end
  | _ => Raise RecursionError
  end.

End SafeEvaluator.

(* ------------------------------------------------------------------ *)
(** * The program's functions *)

(** What the program takes from the host: the C library's transcendental
    functions, the frames left when [evaluate_expression] calls
    [evaluator.visit], and [ast.parse(text, mode="eval")], which returns
    a tree or raises ([SyntaxError] on text outside the grammar). *)
Record host : Type := {
  math : libm;
  recursion_limit : nat;
  ast_parse : string -> result node
}.

(** Replaces [^] by [**], then strips whitespace at both ends. *)
Definition preprocess_expression (expression : string) : string :=
  str.strip (str.replace expression "^" "**").

(** Only [SyntaxError] is caught around [ast.parse]; it is raised again as
    a [ValueError] that carries its message. *)
Definition evaluate_expression (h : host) (expression : string)
  : result value :=
  let prepared := preprocess_expression expression in
  match ast_parse h prepared with
  | Raise (SyntaxError msg) =>
      Raise (ValueError ("Синтаксическая ошибка: " ++ msg))
  | Raise e => Raise e
  | OK parsed => SafeEvaluator.visit (math h) (recursion_limit h) parsed
  end.

(* ------------------------------------------------------------------ *)
(** * A reference model of [ast.parse(text, mode="eval")]

    The parser is CPython's, not the program's.  [PyParser.parse] models it
    on a fragment of Python's expression syntax, enough to run the program on
    the inputs the specification names:

    - tokens: decimal integers, decimal floats with a point or an exponent,
      the suffix [j], ASCII names, string literals in single or double quotes with
      no prefix and no backslash, [...], the operators and brackets of
      expressions, comments; blanks are spaces, tabs and form feeds, and line
      breaks inside brackets;
    - grammar, loosest first: [or], [and], [not], comparisons with
      [< > == >= <= !=], [|], [^], [&], shifts, [+ -], [* / // % @], unary
      [+ - ~], [**] (right associative, its right operand may carry a unary
      operator), calls with positional arguments, attribute access,
      subscription by one expression, parenthesised expressions, tuple and
      list displays.

    On text outside the fragment (digit separators, other bases, a number
    directly followed by a keyword, conditional expressions, lambdas,
    comprehensions, keyword arguments, ...) the model answers [SyntaxError]
    where CPython may build a tree; nothing below is stated about such
    text. *)

Module PyParser.

Open Scope string_scope.

Inductive token : Type :=
| NUMBER (c : constant)
| NAME (s : string)
| STRING (s : string)
| OP (s : string).

Definition invalid_syntax {A : Type} : result A :=
  Raise (SyntaxError "invalid syntax").

Definition between (lo hi : nat) (c : ascii) : bool :=
  let n := nat_of_ascii c in (lo <=? n)%nat && (n <=? hi)%nat.

Definition is_digit (c : ascii) : bool := between 48 57 c.

Definition is_name_start (c : ascii) : bool :=
  between 65 90 c || between 97 122 c || Ascii.eqb c "_".

Definition is_name_char (c : ascii) : bool :=
  is_name_start c || is_digit c.

(** The longest prefix of characters satisfying [p], and the rest. *)
Fixpoint take_while (p : ascii -> bool) (s : string) : string * string :=
  match s with
  | String c rest =>
      if p c then let '(a, b) := take_while p rest in (String c a, b)
      else (EmptyString, s)
  | EmptyString => (EmptyString, EmptyString)
  end.

Definition Z_of_digits (s : string) : Z :=
  fold_left (fun acc c => (10 * acc + (Z.of_nat (nat_of_ascii c) - 48))%Z)
            (list_ascii_of_string s) 0%Z.

(** The double nearest to [m * 10 ^ e], as [float(...)] reads a literal. *)
Definition float_of_decimal (m e : Z) : float :=
  if (m =? 0)%Z then 0%float
  else if (0 <=? e)%Z then PyNumber.float_of_Z (m * 10 ^ e)
  else PyNumber.float_of_ratio m (10 ^ (- e)).

(** The exponent part of a float literal: [None] when there is none,
    [Some None] when [e] is followed by no digit. *)
Definition lex_exponent (s : string) : option (option (Z * string)) :=
  match s with
  | String c rest =>
      if Ascii.eqb c "e" || Ascii.eqb c "E" then
        let '(negative, rest') :=
          match rest with
          | String "+" r => (false, r)
          | String "-" r => (true, r)
          | _ => (false, rest)
          end in
        let '(digits, rest'') := take_while is_digit rest' in
        match digits with
        | EmptyString => Some None
        | _ =>
            let e := Z_of_digits digits in
            Some (Some (if negative then (- e)%Z else e, rest''))
        end
      else None
  | EmptyString => None
  end.

(** A number at the head of [s], which starts with a digit or with a point
    and a digit. *)
Definition lex_number (s : string) : result (token * string) :=
  let '(int_digits, r1) := take_while is_digit s in
  let '(point, frac_digits, r2) :=
    match r1 with
    | String "." r =>
        let '(fd, r') := take_while is_digit r in (true, fd, r')
    | _ => (false, EmptyString, r1)
    end in
  let mantissa := Z_of_digits (int_digits ++ frac_digits) in
  let scale := (- Z.of_nat (length frac_digits))%Z in
  match lex_exponent r2 with
  | Some None => Raise (SyntaxError "invalid decimal literal")
  | exponent =>
      let '(is_float, number, r3) :=
        match exponent with
        | Some (Some (e, r)) =>
            (true, float_of_decimal mantissa (e + scale), r)
        | _ => (point, float_of_decimal mantissa scale, r2)
        end in
      let '(imaginary, r4) :=
        match r3 with
        | String c r =>
            if Ascii.eqb c "j" || Ascii.eqb c "J" then (true, r)
            else (false, r3)
        | EmptyString => (false, r3)
        end in
      let followed_by_name :=
        match r4 with
        | String c _ => is_name_char c
        | EmptyString => false
        end in
      if followed_by_name then Raise (SyntaxError "invalid decimal literal")
      else if imaginary then OK (NUMBER (CComplex 0 number), r4)
      else if is_float then OK (NUMBER (CFloat number), r4)
      else if prefix "0" int_digits && negb (mantissa =? 0)%Z then
        Raise (SyntaxError
                 "leading zeros in decimal integer literals are not permitted")
      else OK (NUMBER (CInt mantissa), r4)
  end.

(** The body of a string literal up to the quote [q]. *)
Fixpoint lex_string (q : ascii) (s : string) : result (string * string) :=
  match s with
  | EmptyString => Raise (SyntaxError "unterminated string literal")
  | String c rest =>
      if Ascii.eqb c q then OK (EmptyString, rest)
      else if Ascii.eqb c "\" || Ascii.eqb c "010" || Ascii.eqb c "013" then
        Raise (SyntaxError "unterminated string literal")
      else
        r <- lex_string q rest ;; OK (String c (fst r), snd r)
  end.

(** Operators and delimiters, the longest first. *)
Definition operators : list string :=
  ["..."; "**"; "//"; "<<"; ">>"; "<="; ">="; "=="; "!=";
   "+"; "-"; "*"; "/"; "%"; "@"; "("; ")"; "["; "]"; ","; "."; "<"; ">";
   "&"; "|"; "~"; "^"].

Definition lex_operator (s : string) : option (string * string) :=
  match filter (fun o => prefix o s) operators with
  | o :: _ =>
      match str.drop_prefix o s with
      | Some rest => Some (o, rest)
      | None => None
      end
  | [] => None
  end.

(** [MAXLEVEL] of CPython's tokenizer: the deepest nesting of brackets. *)
Definition MAXLEVEL : nat := 200.

(** [level] counts the brackets open at the head of [s]. *)
Fixpoint tokenize (fuel : nat) (level : nat) (s : string)
  : result (list token) :=
  match fuel with
  | O => Raise MemoryError
  | S fuel' =>
      match s with
      | EmptyString => OK []
      | String c rest =>
          if Ascii.eqb c " " || Ascii.eqb c "009" || Ascii.eqb c "012" then
            tokenize fuel' level rest
          else if Ascii.eqb c "010" || Ascii.eqb c "013" then
            match level with
            | O => invalid_syntax
            | _ => tokenize fuel' level rest
            end
          else if Ascii.eqb c "#" then
            tokenize fuel' level
              (snd (take_while (fun x => negb (Ascii.eqb x "010")) rest))
          else if is_digit c
                  || (Ascii.eqb c "."
                      && match rest with
                         | String d _ => is_digit d
                         | EmptyString => false
                         end) then
            r <- lex_number s ;;
            ts <- tokenize fuel' level (snd r) ;; OK (fst r :: ts)
          else if is_name_start c then
            let '(name, rest') := take_while is_name_char s in
            ts <- tokenize fuel' level rest' ;; OK (NAME name :: ts)
          else if Ascii.eqb c "'" || Ascii.eqb c "034" then
            r <- lex_string c rest ;;
            ts <- tokenize fuel' level (snd r) ;; OK (STRING (fst r) :: ts)
          else
            match lex_operator s with
            | None => invalid_syntax
            | Some (o, rest') =>
                if (o =? "(") || (o =? "[") then
                  if (MAXLEVEL <=? level)%nat then
                    Raise (SyntaxError "too many nested parentheses")
                  else
                    ts <- tokenize fuel' (S level) rest' ;; OK (OP o :: ts)
                else if (o =? ")") || (o =? "]") then
                  ts <- tokenize fuel' (pred level) rest' ;; OK (OP o :: ts)
                else
                  ts <- tokenize fuel' level rest' ;; OK (OP o :: ts)
            end
      end
  end.

(** Binary operators that build a [BinOp], with their binding strength
    (5 for [|] up to 10 for [*]); all associate to the left. *)
Definition binary_operator (o : string) : option (nat * node) :=
  if o =? "|" then Some (5, Other "BitOr" [])
  else if o =? "^" then Some (6, Other "BitXor" [])
  else if o =? "&" then Some (7, Other "BitAnd" [])
  else if o =? "<<" then Some (8, Other "LShift" [])
  else if o =? ">>" then Some (8, Other "RShift" [])
  else if o =? "+" then Some (9, Add)
  else if o =? "-" then Some (9, Sub)
  else if o =? "*" then Some (10, Mult)
  else if o =? "/" then Some (10, Div)
  else if o =? "//" then Some (10, FloorDiv)
  else if o =? "%" then Some (10, Mod)
  else if o =? "@" then Some (10, Other "MatMult" [])
  else None.

Definition unary_operator (o : string) : option node :=
  if o =? "+" then Some UAdd
  else if o =? "-" then Some USub
  else if o =? "~" then Some (Other "Invert" [])
  else None.

Definition comparison_operator (o : string) : option node :=
  if o =? "<" then Some (Other "Lt" [])
  else if o =? ">" then Some (Other "Gt" [])
  else if o =? "==" then Some (Other "Eq" [])
  else if o =? ">=" then Some (Other "GtE" [])
  else if o =? "<=" then Some (Other "LtE" [])
  else if o =? "!=" then Some (Other "NotEq" [])
  else None.

(** The reserved words; none of them is a [Name]. *)
Definition keywords : list string :=
  ["False"; "None"; "True"; "and"; "as"; "assert"; "async"; "await";
   "break"; "class"; "continue"; "def"; "del"; "elif"; "else"; "except";
   "finally"; "for"; "from"; "global"; "if"; "import"; "in"; "is";
   "lambda"; "nonlocal"; "not"; "or"; "pass"; "raise"; "return"; "try";
   "while"; "with"; "yield"].

Definition is_keyword (s : string) : bool :=
  existsb (String.eqb s) keywords.

Definition Attribute (value : node) : node := Other "Attribute" [value; Load].
Definition Subscript (value index : node) : node :=
  Other "Subscript" [value; index; Load].
Definition Tuple (elts : list node) : node := Other "Tuple" (elts ++ [Load]).
Definition List (elts : list node) : node := Other "List" (elts ++ [Load]).
Definition Compare (left_ : node) (ops comparators : list node) : node :=
  Other "Compare" (left_ :: ops ++ comparators).
Definition BoolOp (op_ : node) (values : list node) : node :=
  Other "BoolOp" (op_ :: values).

(** Adjacent string literals are one constant. *)
Fixpoint parse_strings (s : string) (ts : list token) : node * list token :=
  match ts with
  | STRING s' :: ts' => parse_strings (s ++ s') ts'
  | _ => (Constant (CStr s), ts)
  end.

(** Precedence climbing over the token list.  [parse_expr fuel p ts] reads
    the longest expression whose operators bind at least as tightly as [p];
    [parse_loop] extends a left operand already read.  Strengths: [or] 1,
    [and] 2, [not] 3, comparisons 4, binary operators 5 to 10, unary
    operators 11, [**] 12.  [fuel] bounds the nesting of calls; [parse]
    gives four for each token and sixteen more. *)
Fixpoint parse_expr (fuel : nat) (p : nat) (ts : list token)
  : result (node * list token) :=
  match fuel with
  | O => Raise MemoryError
  | S fuel' =>
      match ts with
      | NAME "not" :: ts' =>
          if (p <=? 3)%nat then
            r <- parse_expr fuel' 3 ts' ;;
            parse_loop fuel' p (UnaryOp (Other "Not" []) (fst r)) (snd r)
          else invalid_syntax
      | OP o :: ts' =>
          match unary_operator o with
          | Some u =>
              r <- parse_expr fuel' 11 ts' ;;
              parse_loop fuel' p (UnaryOp u (fst r)) (snd r)
          | None =>
              r <- parse_atom fuel' ts ;;
              r' <- parse_postfix fuel' (fst r) (snd r) ;;
              parse_loop fuel' p (fst r') (snd r')
          end
      | _ =>
          r <- parse_atom fuel' ts ;;
          r' <- parse_postfix fuel' (fst r) (snd r) ;;
          parse_loop fuel' p (fst r') (snd r')
      end
  end

with parse_loop (fuel : nat) (p : nat) (lhs : node) (ts : list token)
  : result (node * list token) :=
  match fuel with
  | O => Raise MemoryError
  | S fuel' =>
      match ts with
      | OP "**" :: ts' =>
          r <- parse_expr fuel' 11 ts' ;;
          parse_loop fuel' p (BinOp lhs Pow (fst r)) (snd r)
      | OP o :: ts' =>
          match binary_operator o, comparison_operator o with
          | Some (q, b), _ =>
              if (p <=? q)%nat then
                r <- parse_expr fuel' (S q) ts' ;;
                parse_loop fuel' p (BinOp lhs b (fst r)) (snd r)
              else OK (lhs, ts)
          | None, Some c =>
              if (p <=? 4)%nat then
                r <- parse_expr fuel' 5 ts' ;;
                r' <- parse_compare fuel' [c] [fst r] (snd r) ;;
                let '(ops, comparators, ts'') := r' in
                parse_loop fuel' p (Compare lhs ops comparators) ts''
              else OK (lhs, ts)
          | None, None => OK (lhs, ts)
          end
      | NAME "and" :: ts' =>
          if (p <=? 2)%nat then
            r <- parse_expr fuel' 3 ts' ;;
            r' <- parse_bool fuel' "and" 3 [fst r] (snd r) ;;
            parse_loop fuel' p (BoolOp (Other "And" []) (lhs :: fst r'))
                       (snd r')
          else OK (lhs, ts)
      | NAME "or" :: ts' =>
          if (p <=? 1)%nat then
            r <- parse_expr fuel' 2 ts' ;;
            r' <- parse_bool fuel' "or" 2 [fst r] (snd r) ;;
            parse_loop fuel' p (BoolOp (Other "Or" []) (lhs :: fst r'))
                       (snd r')
          else OK (lhs, ts)
      | _ => OK (lhs, ts)
      end
  end

(** The rest of a chain [a < b <= c ...], operators and operands apart. *)
with parse_compare (fuel : nat) (ops comparators : list node)
    (ts : list token) : result (list node * list node * list token) :=
  match fuel with
  | O => Raise MemoryError
  | S fuel' =>
      match ts with
      | OP o :: ts' =>
          match comparison_operator o with
          | Some c =>
              r <- parse_expr fuel' 5 ts' ;;
              parse_compare fuel' (ops ++ [c])%list (comparators ++ [fst r])%list
                            (snd r)
          | None => OK (ops, comparators, ts)
          end
      | _ => OK (ops, comparators, ts)
      end
  end

(** The rest of a chain [a and b and c ...] (or of [or]). *)
with parse_bool (fuel : nat) (word : string) (p : nat) (values : list node)
    (ts : list token) : result (list node * list token) :=
  match fuel with
  | O => Raise MemoryError
  | S fuel' =>
      match ts with
      | NAME w :: ts' =>
          if w =? word then
            r <- parse_expr fuel' p ts' ;;
            parse_bool fuel' word p (values ++ [fst r])%list (snd r)
          else OK (values, ts)
      | _ => OK (values, ts)
      end
  end

with parse_atom (fuel : nat) (ts : list token)
  : result (node * list token) :=
  match fuel with
  | O => Raise MemoryError
  | S fuel' =>
      match ts with
      | NUMBER c :: ts' => OK (Constant c, ts')
      | STRING s :: ts' => OK (parse_strings s ts')
      | NAME s :: ts' =>
          if s =? "True" then OK (Constant (CBool true), ts')
          else if s =? "False" then OK (Constant (CBool false), ts')
          else if s =? "None" then OK (Constant CNone, ts')
          else if is_keyword s then invalid_syntax
          else OK (Name s Load, ts')
      | OP "..." :: ts' => OK (Constant CEllipsis, ts')
      | OP "(" :: OP ")" :: ts' => OK (Tuple [], ts')
      | OP "(" :: ts' =>
          r <- parse_expr fuel' 1 ts' ;;
          match snd r with
          | OP ")" :: ts'' => OK (fst r, ts'')
          | OP "," :: ts'' =>
              r' <- parse_items fuel' ")" [fst r] ts'' ;;
              OK (Tuple (fst r'), snd r')
          | _ => invalid_syntax
          end
      | OP "[" :: ts' =>
          r <- parse_items fuel' "]" [] ts' ;; OK (List (fst r), snd r)
      | _ => invalid_syntax
      end
  end

(** Calls, attribute references and subscriptions after an atom. *)
with parse_postfix (fuel : nat) (lhs : node) (ts : list token)
  : result (node * list token) :=
  match fuel with
  | O => Raise MemoryError
  | S fuel' =>
      match ts with
      | OP "(" :: ts' =>
          r <- parse_items fuel' ")" [] ts' ;;
          parse_postfix fuel' (Call lhs (fst r) []) (snd r)
      | OP "." :: NAME s :: ts' =>
          if is_keyword s then invalid_syntax
          else parse_postfix fuel' (Attribute lhs) ts'
      | OP "[" :: ts' =>
          r <- parse_expr fuel' 1 ts' ;;
          match snd r with
          | OP "]" :: ts'' => parse_postfix fuel' (Subscript lhs (fst r)) ts''
          | _ => invalid_syntax
          end
      | _ => OK (lhs, ts)
      end
  end

(** Expressions separated by commas up to the bracket [close]; a comma
    may precede the bracket when an expression does. *)
with parse_items (fuel : nat) (close : string) (items : list node)
    (ts : list token) : result (list node * list token) :=
  match fuel with
  | O => Raise MemoryError
  | S fuel' =>
      let closing :=
        match ts with
        | OP o :: _ => o =? close
        | _ => false
        end in
      if closing then OK (items, tl ts)
      else
        r <- parse_expr fuel' 1 ts ;;
        match snd r with
        | OP o :: ts' =>
            if o =? "," then parse_items fuel' close (items ++ [fst r])%list ts'
            else if o =? close then OK ((items ++ [fst r])%list, ts')
            else invalid_syntax
        | _ => invalid_syntax
        end
  end.

(** [ast.parse(text, mode="eval")]: one expression and nothing after it. *)
Definition parse (text : string) : result node :=
  ts <- tokenize (S (length text)) 0 text ;;
  r <- parse_expr (4 * List.length ts + 16) 1 ts ;;
  match snd r with
  | [] => OK (Expression (fst r))
  | _ => invalid_syntax
  end.

End PyParser.

(* ------------------------------------------------------------------ *)
(** * Hosts and vocabulary for the statements *)

Open Scope string_scope.

(** [sys.getrecursionlimit()] as CPython starts. *)
Definition default_recursion_limit : nat := 1000.

(** CPython with a given C library, at the call
    [<module> -> main -> evaluate_expression]: three frames are in use when
    the evaluator is entered. *)
Definition cpython (m : libm) : host :=
  {| math := m;
     recursion_limit := default_recursion_limit - 3;
     ast_parse := PyParser.parse |}.

(** An inhabitant of [libm], to instantiate statements that hold for every
    C library.  It approximates nothing: no statement below depends on the
    numbers it returns. *)
Definition libm0 : libm :=
  {| c_pow := fun x _ => x;
     complex_pow := fun a _ => OK a |}.

(** Some node of the tree, the root included, satisfies [p]. *)
Fixpoint occurs (p : node -> bool) (n : node) : bool :=
  p n ||
  match n with
  | Expression body => occurs p body
  | Expr v => occurs p v
  | BinOp l o r => occurs p l || occurs p o || occurs p r
  | UnaryOp o x => occurs p o || occurs p x
  | Name _ ctx => occurs p ctx
  | Call func args keywords =>
      occurs p func || existsb (occurs p) args
      || existsb (occurs p) keywords
  | Other _ fields => existsb (occurs p) fields
  | _ => false
  end.

(** A node the evaluator refuses wherever it meets it: one outside the
    allow-list, or a constant that is not a number. *)
Definition refused (n : node) : bool :=
  match n with
  | Constant (CInt _ | CFloat _ | CBool _) => false
  | Constant _ => true
  | _ => negb (SafeEvaluator.allowed_nodes n)
  end.

(** An identifier used as a variable, or a call. *)
Definition is_name_or_call (n : node) : bool :=
  match n with
  | Name _ _ | Call _ _ _ => true
  | _ => false
  end.

(** The constructs of the specification's list: identifiers, calls, string
    literals, list displays, comparisons and boolean operators ([and], [or],
    and [not], a [UnaryOp] whose operator is [Not]). *)
Definition is_listed_construct (n : node) : bool :=
  match n with
  | Name _ _ | Call _ _ _ => true
  | Constant (CStr _) => true
  | Other c _ =>
      (c =? "List") || (c =? "Compare") || (c =? "BoolOp") || (c =? "Not")
  | _ => false
  end.

(** The result is the [ValueError] the program makes of a [SyntaxError]. *)
Definition is_syntax_error (r : result value) : Prop :=
  exists msg, r = Raise (ValueError ("Синтаксическая ошибка: " ++ msg)).

(** The message of the translated [ZeroDivisionError]. *)
Definition division_by_zero : exn :=
  ValueError "Деление на ноль недопустимо".

(** [/], [//] or [%]. *)
Definition is_division (o : node) : bool :=
  match o with
  | Div | FloorDiv | Mod => true
  | _ => false
  end.

(** A real number equal to zero: [False], [0], [0.0] or [-0.0]. *)
Definition is_zero (v : value) : bool :=
  match v with
  | VBool b => negb b
  | VInt z => (z =? 0)%Z
  | VFloat f => (f =? 0)%float
  | _ => false
  end.

(** A real number that has a value as a float. *)
Definition fits_float (v : value) : bool :=
  match PyNumber.to_double v with
  | OK _ => true
  | Raise _ => false
  end.



(** The specification's wording of the preprocessor's first step: every
    caret becomes the two characters of the power operator, every other
    character stays. *)
Fixpoint caret_to_power (s : string) : string :=
  match s with
  | EmptyString => EmptyString
  | String c rest =>
      if Ascii.eqb c "^" then String "*" (String "*" (caret_to_power rest))
      else String c (caret_to_power rest)
  end.

(** A run of characters of [chars], each given by its bytes. *)
Inductive run (chars : list string) : string -> Prop :=
| run_nil : run chars EmptyString
| run_cons w s : In w chars -> run chars s -> run chars (w ++ s).

(** A run of whitespace characters. *)
Definition blank : string -> Prop := run str.whitespace.

(** [s] starts with no whitespace character, and ends with none. *)
Definition no_leading_whitespace (s : string) : Prop :=
  forall w r, In w str.whitespace -> s <> w ++ r.

Definition no_trailing_whitespace (s : string) : Prop :=
  forall w r, In w str.whitespace -> s <> r ++ w.

(** A constant that is neither an [int] nor a [float] ([bool] is an [int]). *)
Definition non_numeric (c : constant) : bool :=
  match c with
  | CInt _ | CFloat _ | CBool _ => false
  | _ => true
  end.

(** Every class but [Constant]. *)
Definition non_constant (n : node) : bool :=
  match n with
  | Constant _ => false
  | _ => true
  end.

(** The computation raises. *)
Definition raises {A : Type} (r : result A) : Prop :=
  exists e, r = Raise e.

(** The tree the parser makes of a text, [Load] when it makes none. *)
Definition parsed (text : string) : node :=
  match PyParser.parse text with
  | OK tree => tree
  | Raise _ => Load
  end.


(* ------------------------------------------------------------------ *)
(** * The callers: [repl] and [main] *)

(** What [input] gives a session: a line, without its line break, or an
    interrupt from the keyboard.  The end of the list is the end of the
    input, where [input] raises [EOFError]. *)
Inductive input_event : Type :=
| Line (text : string)
| KeyboardInterrupt.

(** What a session writes: the prompt of [input], and the lines [print]
    sends to the standard output and to the standard error. *)
Inductive output : Type :=
| Prompt (text : string)
| Stdout (line : string)
| Stderr (line : string).

(** The host's [str], which [print] and the f-strings call: on a result it
    can raise (an [int] of more digits than the interpreter converts), on
    an exception it gives the message. *)
Record console : Type := {
  str_value : value -> result string;
  host_message : exn -> string
}.

(** [str(exc)]: an exception made with one argument prints as it. *)
Definition str_exception (c : console) (exc : exn) : string :=
  match exc with
  | ValueError msg => msg
  | _ => host_message c exc
  end.

(** [str.lower] on the letters A to Z; a character outside ASCII is left
    as it is.  No such character has a lowercase made of ASCII letters
    among those of ["exit"] and ["quit"], so the test [repl] makes of
    [line.lower()] is the one made here. *)
Definition lower_char (c : ascii) : ascii :=
  if PyParser.between 65 90 c then ascii_of_nat (nat_of_ascii c + 32) else c.

Fixpoint lower (s : string) : string :=
  match s with
  | EmptyString => EmptyString
  | String c rest => String (lower_char c) (lower rest)
  end.

(** The body of the two [try] blocks around [evaluate_expression] and
    [print(result)]: the line printed, or the exception of either. *)
Definition evaluate_and_format (c : console) (h : host) (expression : string)
  : result string :=
  result <- evaluate_expression h expression ;; str_value c result.

Section Callers.

Variable c : console.

(** The loop of [repl].  [h] has the frames left where [repl] calls
    [evaluate_expression]. *)
Fixpoint repl_loop (h : host) (inputs : list input_event) : list output :=
  match inputs with
  | [] | KeyboardInterrupt :: _ => [Prompt "calc> "; Stdout ""]
  | Line text :: rest =>
      let line := str.strip text in
      Prompt "calc> " ::
      if (line =? "")%string then repl_loop h rest
      else if existsb (String.eqb (lower line)) ["exit"; "quit"] then []
      else
        match evaluate_and_format c h line with
        | OK printed => Stdout printed
        | Raise exc => Stdout ("Ошибка: " ++ str_exception c exc)
        end :: repl_loop h rest
  end.

Definition repl (h : host) (inputs : list input_event) : list output :=
  Stdout "Интерактивный калькулятор. Введите выражение (или 'exit'/'quit' для выхода)."
  :: repl_loop h inputs.

(** The host one call deeper. *)
Definition one_frame_down (h : host) : host :=
  {| math := math h;
     recursion_limit := pred (recursion_limit h);
     ast_parse := ast_parse h |}.

(** [main(argv)]: what is written and the status returned.  [h] has the
    frames left where [main] calls [evaluate_expression]; [repl] calls it
    one frame deeper. *)
Definition main (h : host) (argv : list string) (inputs : list input_event)
  : list output * Z :=
  if (1 <? List.length argv)%nat then
    let expr := String.concat " " (tl argv) in
    match evaluate_and_format c h expr with
    | OK printed => ([Stdout printed], 0%Z)
    | Raise exc => ([Stderr ("Ошибка: " ++ str_exception c exc)], 1%Z)
    end
  else (repl (one_frame_down h) inputs, 0%Z).

End Callers.

(** A console with one word for every result and one for every message,
    to instantiate statements that hold for every console. *)
Definition console0 : console :=
  {| str_value := fun v => OK "<result>";
     host_message := fun _ => "<message>" |}.

(* ------------------------------------------------------------------ *)
(** * More vocabulary for the statements *)

(** The classes of the two tables. *)
Definition is_binary_operator (o : node) : bool :=
  match o with
  | Add | Sub | Mult | Div | FloorDiv | Mod | Pow => true
  | _ => false
  end.

Definition is_unary_operator (o : node) : bool :=
  match o with
  | UAdd | USub => true
  | _ => false
  end.

(** A tree of the arithmetic alone: [Expression], [BinOp] and [UnaryOp]
    nodes with operators of the tables, over constants that are numbers. *)
Fixpoint arithmetic (n : node) : bool :=
  match n with
  | Expression body => arithmetic body
  | BinOp l o r => arithmetic l && is_binary_operator o && arithmetic r
  | UnaryOp o x => is_unary_operator o && arithmetic x
  | Constant c => negb (non_numeric c)
  | _ => false
  end.

(** The allow-listed classes that are no expression and have no field. *)
Definition is_marker (n : node) : bool :=
  match n with
  | Load | Add | Sub | Mult | Div | FloorDiv | Mod | Pow | UAdd | USub => true
  | _ => false
  end.

(** A number: any value but [None]. *)
Definition is_number (v : value) : bool :=
  match v with
  | VNone => false
  | _ => true
  end.

(** What a computation returns, if it returns, is a number. *)
Definition returns_number (r : result value) : Prop :=
  forall v, r = OK v -> is_number v = true.

(** Integer expressions, their value in [Z] ([None] for a division by
    zero), their tree and the height of the tree. *)
Inductive int_operator : Type :=
| IAdd
| ISub
| IMul
| IFloorDiv
| IMod.

Inductive int_expr : Type :=
| ILit (z : Z)
| IPos (e : int_expr)
| INeg (e : int_expr)
| IBin (o : int_operator) (a b : int_expr).

Definition int_apply (o : int_operator) (x y : Z) : option Z :=
  match o with
  | IAdd => Some (x + y)%Z
  | ISub => Some (x - y)%Z
  | IMul => Some (x * y)%Z
  | IFloorDiv => if (y =? 0)%Z then None else Some (x / y)%Z
  | IMod => if (y =? 0)%Z then None else Some (x mod y)%Z
  end.

Fixpoint int_value (e : int_expr) : option Z :=
  match e with
  | ILit z => Some z
  | IPos e' => int_value e'
  | INeg e' => option_map Z.opp (int_value e')
  | IBin o a b =>
      match int_value a, int_value b with
      | Some x, Some y => int_apply o x y
      | _, _ => None
      end
  end.

Definition node_of_int_operator (o : int_operator) : node :=
  match o with
  | IAdd => Add
  | ISub => Sub
  | IMul => Mult
  | IFloorDiv => FloorDiv
  | IMod => Mod
  end.

Fixpoint node_of_int_expr (e : int_expr) : node :=
  match e with
  | ILit z => Constant (CInt z)
  | IPos e' => UnaryOp UAdd (node_of_int_expr e')
  | INeg e' => UnaryOp USub (node_of_int_expr e')
  | IBin o a b =>
      BinOp (node_of_int_expr a) (node_of_int_operator o) (node_of_int_expr b)
  end.

Fixpoint int_height (e : int_expr) : nat :=
  match e with
  | ILit _ => 1
  | IPos e' | INeg e' => S (int_height e')
  | IBin _ a b => S (Nat.max (int_height a) (int_height b))
  end.

(** Two strings differ at a position both have: neither is a prefix of
    the other. *)
Fixpoint diverge (a b : string) : bool :=
  match a, b with
  | String x a', String y b' => negb (Ascii.eqb x y) || diverge a' b'
  | _, _ => false
  end.

(** No character of the list is a prefix of another one. *)
Definition prefix_free (chars : list string) : bool :=
  forallb (fun a => forallb (fun b => (a =? b)%string || diverge a b) chars)
          chars.

(** The byte a string starts with is [x]. *)
Definition starts_with_byte (x : ascii) (s : string) : bool :=
  match s with
  | String y _ => Ascii.eqb x y
  | EmptyString => false
  end.

(** No byte after the first of a character of the list is the first byte
    of a character of the list. *)
Definition inner_bytes_apart (chars : list string) : bool :=
  forallb
    (fun a =>
       match a with
       | EmptyString => true
       | String _ inner =>
           forallb (fun x => negb (existsb (starts_with_byte x) chars))
                   (list_ascii_of_string inner)
       end)
    chars.

(** The levels of a tree the evaluator goes down.  The operator of an
    operation, the context of a name and the parts of a call or of a node
    outside the allow-list are never visited. *)
Fixpoint depth (n : node) : nat :=
  match n with
  | Expression body => S (depth body)
  | Expr v => S (depth v)
  | BinOp l _ r => S (Nat.max (depth l) (depth r))
  | UnaryOp _ x => S (depth x)
  | _ => 1
  end.

(** The nodes whose visit ends in [NodeVisitor.generic_visit]: an [Expr]
    statement and the markers, alone or as the body of an [Expression]. *)
Fixpoint returns_nothing (n : node) : bool :=
  match n with
  | Expression body => returns_nothing body
  | Expr _ => true
  | _ => is_marker n
  end.

(** A [bool] read as the [int] it is. *)
Definition as_int (v : value) : value :=
  match v with
  | VBool b => VInt (PyNumber.Z_of_bool b)
  | _ => v
  end.

(** A [float] or a [complex]. *)
Definition is_inexact (v : value) : bool :=
  match v with
  | VFloat _ | VComplex _ _ => true
  | _ => false
  end.

(** What the functions of the two tables raise: the host's three
    arithmetic errors, and whatever the C library's complex power does. *)
Definition numeric_error (m : libm) (e : exn) : Prop :=
  e = TypeError \/ e = OverflowError \/ e = ZeroDivisionError
  \/ exists x y, complex_pow m x y = Raise e.

(** What a visit raises: a [ValueError] of the program, or an error of
    the host that no handler of the program catches. *)
Definition evaluator_error (m : libm) (e : exn) : Prop :=
  (exists msg, e = ValueError msg)
  \/ e = TypeError \/ e = OverflowError \/ e = RecursionError
  \/ exists x y, complex_pow m x y = Raise e.

(** The computation raises nothing outside [P]. *)
Definition fails_within {A : Type} (P : exn -> Prop) (r : result A) : Prop :=
  forall e, r = Raise e -> P e.

(* ------------------------------------------------------------------ *)
(** * The evaluator refuses what it does not list *)

Section Evaluator.

Variable m : libm.

Lemma raises_Raise (A : Type) (e : exn) : raises (@Raise A e).
Proof. exists e; reflexivity. Qed.

Lemma raises_bind (A B : Type) (r : result A) (k : A -> result B) :
  raises r -> raises (x <- r ;; k x).
Proof. intros [e ->]; apply raises_Raise. Qed.

(** One unfolding of [visit] on each class with a method of its own. *)
Lemma visit_Expression_eq (f : nat) (body : node) :
  SafeEvaluator.visit m (S (S f)) (Expression body)
  = SafeEvaluator.visit m f body.
Proof. reflexivity. Qed.

Lemma visit_BinOp_eq (f : nat) (l o r : node) :
  SafeEvaluator.visit m (S (S f)) (BinOp l o r)
  = SafeEvaluator.visit_BinOp m (SafeEvaluator.visit m f) l o r.
Proof. reflexivity. Qed.

Lemma visit_UnaryOp_eq (f : nat) (o x : node) :
  SafeEvaluator.visit m (S (S f)) (UnaryOp o x)
  = SafeEvaluator.visit_UnaryOp (SafeEvaluator.visit m f) o x.
Proof. reflexivity. Qed.

Lemma visit_Constant_eq (f : nat) (c : constant) :
  SafeEvaluator.visit m (S (S f)) (Constant c)
  = SafeEvaluator.visit_Constant c.
Proof. reflexivity. Qed.

(** [NodeVisitor.generic_visit] raises as soon as one child does. *)
Lemma fold_visit_raises (visit : node -> result value) (l : list node)
    (acc : result value) :
  raises acc \/ (exists c, In c l /\ raises (visit c)) ->
  raises (fold_left
            (fun a child => _ <- a ;; _ <- visit child ;; OK VNone) l acc).
Proof.
  revert acc; induction l as [|c l IH]; intros acc H; simpl.
  - destruct H as [H|[c [[] _]]]; exact H.
  - apply IH. destruct H as [H|[c' [[<-|Hin] Hc]]].
    + left; apply raises_bind, H.
    + left. destruct acc as [a|e]; [|apply raises_Raise].
      simpl. apply raises_bind, Hc.
    + right; exists c'; split; assumption.
Qed.

Lemma generic_visit_raises (visit : node -> result value) (n c : node) :
  In c (iter_child_nodes n) -> raises (visit c) ->
  raises (ast.generic_visit visit n).
Proof.
  intros Hin Hc; unfold ast.generic_visit.
  apply fold_visit_raises; right; exists c; split; assumption.
Qed.

Section Refused.

(** Any set [p] of refused nodes. *)
Variable p : node -> bool.
Hypothesis p_refused : forall n, p n = true -> refused n = true.

Lemma p_allowed (n : node) :
  SafeEvaluator.allowed_nodes n = true -> non_constant n = true ->
  p n = false.
Proof.
  intros Ha Hc; destruct (p n) eqn:Hp; [|reflexivity].
  apply p_refused in Hp; destruct n; simpl in *; discriminate.
Qed.

(** An operator node in which a refused node occurs is in neither table. *)
Lemma refused_not_binary (o : node) :
  occurs p o = true -> BINARY_OPERATORS m o = None.
Proof.
  destruct o; simpl; intros H; try reflexivity;
    rewrite p_allowed in H by reflexivity; discriminate.
Qed.

Lemma refused_not_unary (o : node) :
  occurs p o = true -> UNARY_OPERATORS o = None.
Proof.
  destruct o; simpl; intros H; try reflexivity;
    rewrite p_allowed in H by reflexivity; discriminate.
Qed.

(** The core of the evaluator's defence: a tree in which a refused node
    occurs anywhere is never evaluated to a value. *)
Lemma visit_refused (frames : nat) :
  forall t, occurs p t = true -> raises (SafeEvaluator.visit m frames t).
Proof.
  induction frames as [frames IH] using lt_wf_ind; intros t H.
  destruct frames as [|[|f]]; try apply raises_Raise.
  assert (IHf : forall t', occurs p t' = true ->
                           raises (SafeEvaluator.visit m f t'))
    by (apply IH; lia).
  destruct t;
    try (simpl in H; rewrite p_allowed in H by reflexivity; simpl in H);
    try discriminate H;
    try (simpl; apply raises_Raise).
  - (* Expression *)
    rewrite visit_Expression_eq; apply IHf, H.
  - (* Expr *)
    simpl. unfold SafeEvaluator.generic_visit; simpl.
    destruct f as [|f']; [apply raises_Raise|].
    apply generic_visit_raises with (c := t); [left; reflexivity|].
    apply IH; [lia | exact H].
  - (* BinOp *)
    rewrite visit_BinOp_eq; unfold SafeEvaluator.visit_BinOp.
    destruct (occurs p t1) eqn:H1; [apply raises_bind, IHf, H1|].
    destruct (SafeEvaluator.visit m f t1) as [vl|e];
      [simpl | apply raises_Raise].
    destruct (occurs p t3) eqn:H3; [apply raises_bind, IHf, H3|].
    destruct (SafeEvaluator.visit m f t3) as [vr|e];
      [simpl | apply raises_Raise].
    rewrite orb_false_r in H; simpl in H.
    rewrite (refused_not_binary _ H); apply raises_Raise.
  - (* UnaryOp *)
    rewrite visit_UnaryOp_eq; unfold SafeEvaluator.visit_UnaryOp.
    destruct (occurs p t2) eqn:H2; [apply raises_bind, IHf, H2|].
    destruct (SafeEvaluator.visit m f t2) as [x|e];
      [simpl | apply raises_Raise].
    rewrite orb_false_r in H.
    rewrite (refused_not_unary _ H); apply raises_Raise.
  - (* Constant *)
    rewrite visit_Constant_eq. simpl in H; rewrite orb_false_r in H.
    apply p_refused in H.
    match goal with |- context [SafeEvaluator.visit_Constant ?c] =>
      destruct c end;
      simpl in H; try discriminate H; apply raises_Raise.
Qed.

End Refused.

End Evaluator.

(* ------------------------------------------------------------------ *)
(** * Identifiers, calls and other constructs outside the arithmetic *)

Lemma name_or_call_refused (n : node) :
  is_name_or_call n = true -> refused n = true.
Proof. destruct n; simpl; intros H; try discriminate H; reflexivity. Qed.

Lemma listed_construct_refused (n : node) :
  is_listed_construct n = true -> refused n = true.
Proof.
  destruct n as [| | | |c| | | | | | | | | | | | |]; simpl; intros H;
    try discriminate H; try reflexivity.
  destruct c; try discriminate H; reflexivity.
Qed.

(** [evaluate_expression] lets through whatever the visit of a parsed tree
    returns or raises. *)
Lemma evaluate_parsed (h : host) (expression : string) (tree : node) :
  ast_parse h (preprocess_expression expression) = OK tree ->
  evaluate_expression h expression
  = SafeEvaluator.visit (math h) (recursion_limit h) tree.
Proof. intros H; unfold evaluate_expression; rewrite H; reflexivity. Qed.

(** Text the parser refuses is never evaluated. *)
Lemma evaluate_unparsed (h : host) (expression : string) (e : exn) :
  ast_parse h (preprocess_expression expression) = Raise e ->
  raises (evaluate_expression h expression).
Proof.
  intros H; unfold evaluate_expression; rewrite H.
  destruct e; apply raises_Raise.
Qed.

(** C1 -- An input with an identifier or a call in it, that is, an input
    of which the parser can only make a tree holding a [Name] or a [Call]
    node, makes [evaluate_expression] raise: no value is returned.  The
    evaluator has no way to resolve a name or to perform a call: visiting
    a [Name] or a [Call] raises at once, whatever the node holds. *)
Theorem names_and_calls_are_rejected
    (h : host) (expression : string) :
  (forall tree,
      ast_parse h (preprocess_expression expression) = OK tree ->
      occurs is_name_or_call tree = true) ->
  raises (evaluate_expression h expression)
  /\ (forall frames id ctx,
         SafeEvaluator.visit (math h) (S (S frames)) (Name id ctx)
         = Raise (ValueError "Имена/переменные не разрешены"))
  /\ (forall frames func args keywords,
         SafeEvaluator.visit (math h) (S (S frames)) (Call func args keywords)
         = Raise (ValueError "Вызовы функций не разрешены")).
Proof.
  intros H; split; [|split; reflexivity].
  destruct (ast_parse h (preprocess_expression expression)) as [tree|e] eqn:P.
  - rewrite (evaluate_parsed _ _ _ P).
    apply visit_refused with (p := is_name_or_call).
    + exact name_or_call_refused.
    + apply H; reflexivity.
  - exact (evaluate_unparsed _ _ _ P).
Qed.

(** The inputs ["x + 1"] and ["__import__('os')"] on CPython. *)
Lemma names_and_calls_are_rejected_witness :
  raises (evaluate_expression (cpython libm0) "x + 1")
  /\ raises (evaluate_expression (cpython libm0) "__import__('os')").
Proof.
  split.
  - apply (names_and_calls_are_rejected (cpython libm0) "x + 1").
    intros tree H; vm_compute in H.
    injection H as <-; reflexivity.
  - apply (names_and_calls_are_rejected (cpython libm0) "__import__('os')").
    intros tree H; vm_compute in H.
    injection H as <-; reflexivity.
Defined.

(** C2 (as the code has it) -- A node whose class is outside the
    evaluator's allow-list is refused by the evaluator itself, whatever
    produced the tree: a [Name] and a [Call] by the methods written for
    them, each with its own message, a node of any other class by
    [generic_visit] with "Недопустимая конструкция: <class name>". *)
Theorem outside_allow_list_is_refused
    (m : libm) (frames : nat) (n : node) :
  SafeEvaluator.allowed_nodes n = false ->
  SafeEvaluator.visit m (S (S frames)) n
  = Raise (ValueError
             match n with
             | Name _ _ => "Имена/переменные не разрешены"
             | Call _ _ _ => "Вызовы функций не разрешены"
             | _ => "Недопустимая конструкция: " ++ __name__ n
             end).
Proof.
  destruct n; simpl; intros H; try discriminate H; reflexivity.
Qed.

(** An [Attribute] node, which has no method of its own. *)
Lemma outside_allow_list_is_refused_witness :
  SafeEvaluator.visit libm0 2 (PyParser.Attribute (Constant (CInt 1)))
  = Raise (ValueError "Недопустимая конструкция: Attribute").
Proof.
  apply (outside_allow_list_is_refused libm0 0
           (PyParser.Attribute (Constant (CInt 1)))).
  reflexivity.
Defined.

(** C2 as stated fails: a [Name] is outside {Literal, UnaryOp, BinaryOp}
    and is refused with another message than "invalid construct: Name";
    a [Load] node is outside the three too, and visiting it returns
    [None]. *)
Lemma name_and_load_are_not_invalid_constructs :
  SafeEvaluator.visit libm0 2 (Name "x" Load)
  <> Raise (ValueError ("Недопустимая конструкция: " ++ __name__ (Name "x" Load)))
  /\ SafeEvaluator.visit libm0 3 Load = OK VNone.
Proof.
  split; [|reflexivity].
  simpl; intros H; discriminate H.
Qed.

(** C3 (as the code has it) -- An input the parser turns into a tree
    holding an identifier, a call, a string literal, a list display, a
    comparison or a boolean operator is not evaluated: the text parses,
    the tree goes to the evaluator, and the visit raises. *)
Theorem listed_constructs_fail_at_evaluation
    (h : host) (expression : string) (tree : node) :
  ast_parse h (preprocess_expression expression) = OK tree ->
  occurs is_listed_construct tree = true ->
  evaluate_expression h expression
  = SafeEvaluator.visit (math h) (recursion_limit h) tree
  /\ raises (evaluate_expression h expression).
Proof.
  intros P H; rewrite (evaluate_parsed _ _ _ P); split; [reflexivity|].
  apply visit_refused with (p := is_listed_construct).
  - exact listed_construct_refused.
  - exact H.
Qed.

(** The input ["[1, 2] < 'a' and f(x)"] on CPython. *)
Lemma listed_constructs_fail_at_evaluation_witness :
  raises (evaluate_expression (cpython libm0) "[1, 2] < 'a' and f(x)").
Proof.
  pose (tree :=
          match PyParser.parse "[1, 2] < 'a' and f(x)" with
          | OK t => t
          | Raise _ => Load
          end).
  apply (listed_constructs_fail_at_evaluation
           (cpython libm0) "[1, 2] < 'a' and f(x)" tree).
  - vm_compute; reflexivity.
  - vm_compute; reflexivity.
Defined.

(** C3 as stated fails: ["x + 1"] parses, and the error is the
    evaluator's, not a syntax error. *)
Lemma identifier_is_not_a_syntax_error :
  ~ is_syntax_error (evaluate_expression (cpython libm0) "x + 1").
Proof.
  intros [msg H]; vm_compute in H; discriminate H.
Qed.

(* ------------------------------------------------------------------ *)
(** * Binary operators: division by zero and true division *)

Lemma is_zero_bool (b : bool) : is_zero (VBool b) = true -> b = false.
Proof. destruct b; simpl; intros H; [discriminate H | reflexivity]. Qed.

Lemma is_zero_int (z : Z) : is_zero (VInt z) = true -> z = 0%Z.
Proof. simpl; apply Z.eqb_eq. Qed.

Lemma fits_float_double (v : value) :
  fits_float v = true -> exists x, PyNumber.to_double v = OK x.
Proof.
  unfold fits_float; destruct (PyNumber.to_double v) as [x|e]; intros H;
    [exists x; reflexivity | discriminate H].
Qed.

(** A float divided by a float zero, for each of the three operators. *)
Lemma float_division_by_zero (x y : float) :
  (y =? 0)%float = true ->
  PyNumber.float_div x y = Raise ZeroDivisionError
  /\ PyNumber.float_floor_div x y = Raise ZeroDivisionError
  /\ PyNumber.float_rem x y = Raise ZeroDivisionError.
Proof.
  intros H; unfold PyNumber.float_div, PyNumber.float_floor_div,
    PyNumber.float_rem; rewrite H; repeat split.
Qed.

(** What the three division operators of the table do to a zero divisor
    when both operands are real numbers. *)
Lemma real_division_by_zero (m : libm) (o : node)
    (fn : value -> value -> result value) (vl vr : value) :
  is_division o = true ->
  BINARY_OPERATORS m o = Some fn ->
  is_real vl = true ->
  is_zero vr = true ->
  (is_float vr = true -> fits_float vl = true) ->
  fn vl vr = Raise ZeroDivisionError.
Proof.
  intros Ho Hfn Hl Hz Hfit.
  assert (Hop : fn = op.truediv \/ fn = op.floordiv \/ fn = op.mod_).
  { destruct o; try discriminate Ho; injection Hfn as <-; auto. }
  destruct vr as [|b|z|y|]; try discriminate Hz.
  - (* False *)
    apply is_zero_bool in Hz; subst b.
    destruct vl as [|b'|z'|x|]; try discriminate Hl;
      destruct Hop as [->|[->| ->]]; try reflexivity;
      try (destruct b'; reflexivity).
  - (* 0 *)
    apply is_zero_int in Hz; subst z.
    destruct vl as [|b'|z'|x|]; try discriminate Hl;
      destruct Hop as [->|[->| ->]]; try reflexivity;
      try (destruct b'; reflexivity).
  - (* 0.0 *)
    simpl in Hz.
    assert (Hx : exists x, PyNumber.to_double vl = OK x).
    { apply fits_float_double, Hfit; reflexivity. }
    destruct Hx as [x Hx].
    destruct (float_division_by_zero x y Hz) as [Hd [Hf Hr]].
    destruct vl as [|b'|z'|x'|]; try discriminate Hl;
      destruct Hop as [->|[->| ->]];
      unfold op.truediv, op.floordiv, op.mod_, PyNumber.coerce;
      rewrite Hx; simpl; assumption.
Qed.

(** [visit_BinOp] once both operands have been evaluated. *)
Lemma visit_BinOp_operands (m : libm) (frames : nat) (l o r : node)
    (vl vr : value) :
  SafeEvaluator.visit m frames l = OK vl ->
  SafeEvaluator.visit m frames r = OK vr ->
  SafeEvaluator.visit m (S (S frames)) (BinOp l o r)
  = match BINARY_OPERATORS m o with
    | Some fn =>
        match fn vl vr with
        | Raise ZeroDivisionError => Raise division_by_zero
        | res => res
        end
    | None =>
        Raise (ValueError ("Недопустимая бинарная операция: " ++ __name__ o))
    end.
Proof.
  intros Hl Hr; rewrite visit_BinOp_eq; unfold SafeEvaluator.visit_BinOp.
  rewrite Hl, Hr; reflexivity.
Qed.

(** C4 (as the code has it) -- A division, floor division or modulo
    whose operands evaluate to real numbers ([int], [bool] or [float]),
    the right one to zero, fails with the [ValueError] made of the
    operator's [ZeroDivisionError]; when the zero is a float, the left
    operand has to fit a float for the division to be attempted. *)
Theorem real_division_by_zero_is_reported
    (m : libm) (frames : nat) (l o r : node) (vl vr : value) :
  is_division o = true ->
  SafeEvaluator.visit m frames l = OK vl ->
  SafeEvaluator.visit m frames r = OK vr ->
  is_real vl = true ->
  is_zero vr = true ->
  (is_float vr = true -> fits_float vl = true) ->
  SafeEvaluator.visit m (S (S frames)) (BinOp l o r) = Raise division_by_zero.
Proof.
  intros Ho Hl Hr Hreal Hz Hfit.
  rewrite (visit_BinOp_operands _ _ _ o _ _ _ Hl Hr).
  destruct (BINARY_OPERATORS m o) as [fn|] eqn:Hfn;
    [|destruct o; discriminate].
  rewrite (real_division_by_zero _ _ _ _ _ Ho Hfn Hreal Hz Hfit); reflexivity.
Qed.

(** ["10 / 0"] on CPython: the parsed tree is a [BinOp] of two constants,
    visited with 995 frames left. *)
Lemma real_division_by_zero_is_reported_witness :
  evaluate_expression (cpython libm0) "10 / 0" = Raise division_by_zero.
Proof.
  rewrite (evaluate_parsed (cpython libm0) "10 / 0" (parsed "10 / 0"))
    by (vm_compute; reflexivity).
  change (SafeEvaluator.visit libm0 995
            (BinOp (Constant (CInt 10)) Div (Constant (CInt 0)))
          = Raise division_by_zero).
  apply (real_division_by_zero_is_reported libm0 993
           (Constant (CInt 10)) Div (Constant (CInt 0))
           (VInt 10) (VInt 0));
    reflexivity.
Defined.

(** C4 as stated fails: with an [int] too large for a float on the left
    of a float zero the conversion raises [OverflowError] before the
    division is tried, and [%] has no meaning on the complex number a
    fractional power of a negative base is, so [TypeError] comes first.
    Neither is a [ZeroDivisionError], and neither is caught. *)
Lemma division_by_zero_not_always_reported :
  evaluate_expression (cpython libm0) "10 ** 400 / 0.0" = Raise OverflowError
  /\ evaluate_expression (cpython libm0) "(-8) ** 0.5 % 0" = Raise TypeError.
Proof. split; vm_compute; reflexivity. Qed.

(** The power of [-8] to [0.5] on any C library whose complex power
    returns. *)
Lemma fractional_power_of_negative (m : libm) (frames : nat)
    (c : float * float) :
  complex_pow m ((-8)%float, 0%float) (0.5%float, 0%float) = OK c ->
  SafeEvaluator.visit m (S (S (S (S (S (S frames))))))
    (BinOp (UnaryOp USub (Constant (CInt 8))) Pow (Constant (CFloat 0.5)))
  = OK (VComplex (fst c) (snd c)).
Proof.
  intros H.
  rewrite (visit_BinOp_operands m _ _ Pow _ (VInt (-8)) (VFloat 0.5))
    by reflexivity.
  assert (E : op.pow m (VInt (-8)) (VFloat 0.5)
              = OK (VComplex (fst c) (snd c))).
  { vm_compute; vm_compute in H; rewrite H; reflexivity. }
  change (BINARY_OPERATORS m Pow) with (Some (op.pow m)); cbv beta iota.
  rewrite E; reflexivity.
Qed.

(** The second failure on any such C library. *)
Lemma complex_modulo_zero (m : libm) (c : float * float) :
  complex_pow m ((-8)%float, 0%float) (0.5%float, 0%float) = OK c ->
  evaluate_expression (cpython m) "(-8) ** 0.5 % 0" = Raise TypeError.
Proof.
  intros H.
  rewrite (evaluate_parsed (cpython m) _ (parsed "(-8) ** 0.5 % 0"))
    by (vm_compute; reflexivity).
  change (SafeEvaluator.visit m 997
            (Expression
               (BinOp (BinOp (UnaryOp USub (Constant (CInt 8))) Pow
                             (Constant (CFloat 0.5)))
                      Mod (Constant (CInt 0))))
          = Raise TypeError).
  rewrite visit_Expression_eq.
  rewrite (visit_BinOp_operands m 993 _ Mod _
             (VComplex (fst c) (snd c)) (VInt 0));
    [reflexivity | exact (fractional_power_of_negative m 987 c H)
    | reflexivity].
Qed.



(* ------------------------------------------------------------------ *)
(** * Precedence, grouping and true division *)

(** C5 -- Multiplication binds tighter than addition and parentheses
    group: the parser builds the trees below, and the evaluator computes
    [a + b * c] and [(a + b) * c] on them; so ["2 + 3 * 4"] is [14] and
    ["(2 + 3) * 4"] is [20]. *)
Theorem precedence_and_grouping (m : libm) :
  PyParser.parse "2 + 3 * 4"
  = OK (Expression
          (BinOp (Constant (CInt 2)) Add
                 (BinOp (Constant (CInt 3)) Mult (Constant (CInt 4)))))
  /\ PyParser.parse "(2 + 3) * 4"
     = OK (Expression
             (BinOp (BinOp (Constant (CInt 2)) Add (Constant (CInt 3)))
                    Mult (Constant (CInt 4))))
  /\ (forall frames a b c,
         SafeEvaluator.visit m (8 + frames)
           (Expression
              (BinOp (Constant (CInt a)) Add
                     (BinOp (Constant (CInt b)) Mult (Constant (CInt c)))))
         = OK (VInt (a + b * c)))
  /\ (forall frames a b c,
         SafeEvaluator.visit m (8 + frames)
           (Expression
              (BinOp (BinOp (Constant (CInt a)) Add (Constant (CInt b)))
                     Mult (Constant (CInt c))))
         = OK (VInt ((a + b) * c)))
  /\ evaluate_expression (cpython m) "2 + 3 * 4" = OK (VInt 14)
  /\ evaluate_expression (cpython m) "(2 + 3) * 4" = OK (VInt 20).
Proof.
  repeat split; try (vm_compute; reflexivity); intros; reflexivity.
Qed.








(** The same on any C library whose complex power returns. *)
Lemma complex_quotient (m : libm) (c : float * float) :
  complex_pow m ((-8)%float, 0%float) (0.5%float, 0%float) = OK c ->
  exists re im,
    evaluate_expression (cpython m) "(-8) ** 0.5 / 2" = OK (VComplex re im).
Proof.
  intros H.
  rewrite (evaluate_parsed (cpython m) _ (parsed "(-8) ** 0.5 / 2"))
    by (vm_compute; reflexivity).
  change (exists re im,
             SafeEvaluator.visit m 997
               (Expression
                  (BinOp (BinOp (UnaryOp USub (Constant (CInt 8))) Pow
                                (Constant (CFloat 0.5)))
                         Div (Constant (CInt 2))))
             = OK (VComplex re im)).
  rewrite visit_Expression_eq.
  rewrite (visit_BinOp_operands m 993 _ Div _
             (VComplex (fst c) (snd c)) (VInt 2));
    [| exact (fractional_power_of_negative m 987 c H) | reflexivity].
  destruct c as [re im]; vm_compute; eexists; eexists; reflexivity.
Qed.

(* ------------------------------------------------------------------ *)
(** * Literals *)

(** C8 (as the code has it) -- The literals evaluated are the int and
    float constants the host's parser builds, exponent notation included:
    ["1e10"] is the float [10000000000.0].  A constant of any other type
    (string, bytes, complex, [None], [...]) is refused by the evaluator,
    not by the grammar. *)
Theorem numeric_literals_are_evaluated (m : libm) (frames : nat) :
  (forall z,
      SafeEvaluator.visit m (S (S frames)) (Constant (CInt z)) = OK (VInt z))
  /\ (forall x,
         SafeEvaluator.visit m (S (S frames)) (Constant (CFloat x))
         = OK (VFloat x))
  /\ (forall c,
         non_numeric c = true ->
         SafeEvaluator.visit m (S (S frames)) (Constant c)
         = Raise (ValueError "Разрешены только числовые литералы"))
  /\ PyParser.parse "1e10" = OK (Expression (Constant (CFloat 1e10)))
  /\ evaluate_expression (cpython m) "1e10" = OK (VFloat 1e10)
  /\ evaluate_expression (cpython m) "2.5" = OK (VFloat 2.5)
  /\ evaluate_expression (cpython m) "42" = OK (VInt 42)
  /\ evaluate_expression (cpython m) "'1e10'"
     = Raise (ValueError "Разрешены только числовые литералы").
Proof.
  repeat split; try (vm_compute; reflexivity).
  intros c H; destruct c; try discriminate H; reflexivity.
Qed.

(** C8 as stated fails: ["1e10"] is evaluated, and what comes back is no
    syntax error. *)
Lemma exponent_notation_is_evaluated :
  evaluate_expression (cpython libm0) "1e10" = OK (VFloat 1e10)
  /\ ~ is_syntax_error (evaluate_expression (cpython libm0) "1e10").
Proof.
  split; [vm_compute; reflexivity|].
  intros [msg H]; vm_compute in H; discriminate H.
Qed.

(* ------------------------------------------------------------------ *)
(** * Nesting depth *)


(** Once a child has raised, [generic_visit] visits no other. *)
Lemma fold_visit_Raise (v : node -> result value) (l : list node) (e : exn) :
  fold_left (fun a child => _ <- a ;; _ <- v child ;; OK VNone) l (Raise e)
  = Raise e.
Proof. induction l as [|c l IH]; simpl; [reflexivity | exact IH]. Qed.

Lemma fold_visit_stable (v1 v2 : node -> result value) (l : list node) :
  (forall c r, In c l -> v1 c = r -> r <> Raise RecursionError -> v2 c = r) ->
  forall acc r,
    fold_left (fun a child => _ <- a ;; _ <- v1 child ;; OK VNone) l acc = r ->
    r <> Raise RecursionError ->
    fold_left (fun a child => _ <- a ;; _ <- v2 child ;; OK VNone) l acc = r.
Proof.
  induction l as [|c l IH]; intros H acc r E Hr; [exact E|].
  simpl in E |- *.
  destruct acc as [a|e]; simpl in E |- *;
    [|rewrite fold_visit_Raise in E |- *; exact E].
  destruct (v1 c) as [x|e] eqn:Ec; simpl in E.
  - rewrite (H c (OK x)); [|left; reflexivity|exact Ec|discriminate].
    apply IH; [|exact E|exact Hr].
    intros c' r' Hin; apply H; right; exact Hin.
  - rewrite fold_visit_Raise in E; subst r.
    rewrite (H c (Raise e)); [|left; reflexivity|exact Ec|exact Hr].
    apply fold_visit_Raise.
Qed.

(** What a visit returns or raises, [RecursionError] apart, it returns or
    raises with any larger number of frames. *)
Lemma visit_one_more_frame (m : libm) (frames : nat) :
  forall t r,
    SafeEvaluator.visit m frames t = r -> r <> Raise RecursionError ->
    SafeEvaluator.visit m (S frames) t = r.
Proof.
  induction frames as [frames IH] using lt_wf_ind; intros t r E Hr.
  destruct frames as [|[|f]];
    try (simpl in E; subst r; contradiction Hr; reflexivity).
  assert (IHf : forall t' r', SafeEvaluator.visit m f t' = r' ->
                              r' <> Raise RecursionError ->
                              SafeEvaluator.visit m (S f) t' = r')
    by (apply IH; lia).
  assert (Leaf : forall n,
             iter_child_nodes n = [] ->
             SafeEvaluator.generic_visit
               (match f with
                | S f' => ast.generic_visit (SafeEvaluator.visit m f')
                | O => fun _ => Raise RecursionError
                end) n = r ->
             SafeEvaluator.generic_visit
               (ast.generic_visit (SafeEvaluator.visit m f)) n = r).
  { intros n Hn; unfold SafeEvaluator.generic_visit.
    destruct (negb (SafeEvaluator.allowed_nodes n)); [exact (fun x => x)|].
    destruct f as [|f']; [intros <-; contradiction Hr; reflexivity|].
    unfold ast.generic_visit; rewrite Hn; exact (fun x => x). }
  destruct t; try exact E; try (apply Leaf; [reflexivity | exact E]).
  - rewrite visit_Expression_eq in *; apply IHf; assumption.
  - (* Expr *)
    change (SafeEvaluator.generic_visit
              (ast.generic_visit (SafeEvaluator.visit m f)) (Expr t) = r).
    change (SafeEvaluator.generic_visit
              (match f with
               | S f' => ast.generic_visit (SafeEvaluator.visit m f')
               | O => fun _ => Raise RecursionError
               end) (Expr t) = r) in E.
    unfold SafeEvaluator.generic_visit in *; simpl negb in *; cbv iota in *.
    destruct f as [|f']; [subst r; contradiction Hr; reflexivity|].
    unfold ast.generic_visit in *.
    apply fold_visit_stable with (v1 := SafeEvaluator.visit m f');
      try assumption.
    intros c r' _; apply IH; lia.
  - rewrite visit_BinOp_eq in *; unfold SafeEvaluator.visit_BinOp in *.
    destruct (SafeEvaluator.visit m f t1) as [vl|e] eqn:E1.
    + rewrite (IHf t1 (OK vl) E1) by discriminate. simpl in *.
      destruct (SafeEvaluator.visit m f t3) as [vr|e] eqn:E3.
      * rewrite (IHf t3 (OK vr) E3) by discriminate. exact E.
      * simpl in E; subst r. rewrite (IHf t3 (Raise e) E3 Hr); reflexivity.
    + simpl in E; subst r. rewrite (IHf t1 (Raise e) E1 Hr); reflexivity.
  - rewrite visit_UnaryOp_eq in *; unfold SafeEvaluator.visit_UnaryOp in *.
    destruct (SafeEvaluator.visit m f t2) as [x|e] eqn:E2.
    + rewrite (IHf t2 (OK x) E2) by discriminate. exact E.
    + simpl in E; subst r. rewrite (IHf t2 (Raise e) E2 Hr); reflexivity.
Qed.

Lemma visit_more_frames (m : libm) (frames more : nat) (t : node)
    (r : result value) :
  SafeEvaluator.visit m frames t = r -> r <> Raise RecursionError ->
  SafeEvaluator.visit m (more + frames) t = r.
Proof.
  intros E Hr; induction more as [|more IH]; [exact E|].
  apply visit_one_more_frame; assumption.
Qed.



(* ------------------------------------------------------------------ *)
(** * The preprocessor *)

Section Strings.

Import str.

Lemma append_nil_r (s : string) : s ++ "" = s.
Proof. induction s as [|c s IH]; simpl; [|rewrite IH]; reflexivity. Qed.

Lemma append_assoc (a b c : string) : (a ++ b) ++ c = a ++ (b ++ c).
Proof. induction a as [|x a IH]; simpl; [|rewrite IH]; reflexivity. Qed.

Lemma length_append (a b : string) :
  length (a ++ b) = length a + length b.
Proof. induction a as [|x a IH]; simpl; [|rewrite IH]; reflexivity. Qed.

Lemma list_of_append (a b : string) :
  list_ascii_of_string (a ++ b)
  = (list_ascii_of_string a ++ list_ascii_of_string b)%list.
Proof. induction a as [|x a IH]; simpl; [|rewrite IH]; reflexivity. Qed.

Lemma string_of_app (l1 l2 : list ascii) :
  string_of_list_ascii (l1 ++ l2)
  = string_of_list_ascii l1 ++ string_of_list_ascii l2.
Proof. induction l1 as [|x l1 IH]; simpl; [|rewrite IH]; reflexivity. Qed.

Lemma reverse_append (a b : string) :
  reverse (a ++ b) = reverse b ++ reverse a.
Proof.
  unfold reverse; rewrite list_of_append, rev_app_distr; apply string_of_app.
Qed.

Lemma reverse_involutive (s : string) : reverse (reverse s) = s.
Proof.
  unfold reverse.
  rewrite list_ascii_of_string_of_list_ascii, rev_involutive.
  apply string_of_list_ascii_of_string.
Qed.

Lemma length_list_of (s : string) :
  List.length (list_ascii_of_string s) = length s.
Proof. induction s as [|c s IH]; simpl; [|rewrite IH]; reflexivity. Qed.

Lemma length_reverse (s : string) : length (reverse s) = length s.
Proof.
  rewrite <- (length_list_of (reverse s)); unfold reverse.
  rewrite list_ascii_of_string_of_list_ascii, length_rev.
  apply length_list_of.
Qed.

Lemma drop_prefix_append (w r : string) : drop_prefix w (w ++ r) = Some r.
Proof.
  induction w as [|c w IH]; simpl; [reflexivity|].
  rewrite Ascii.eqb_refl; exact IH.
Qed.

Lemma drop_prefix_Some (w s r : string) :
  drop_prefix w s = Some r -> s = w ++ r.
Proof.
  revert s; induction w as [|c w IH]; intros s H; simpl in H.
  - injection H as ->; reflexivity.
  - destruct s as [|d s]; [discriminate H|].
    destruct (Ascii.eqb_spec c d) as [->|]; [|discriminate H].
    simpl; rewrite (IH s H); reflexivity.
Qed.

Lemma drop_char_Some (chars : list string) (s r : string) :
  drop_char chars s = Some r -> exists w, In w chars /\ s = w ++ r.
Proof.
  induction chars as [|w chars IH]; simpl; intros H; [discriminate H|].
  destruct (drop_prefix w s) as [r'|] eqn:E.
  - injection H as ->; exists w; split; [left; reflexivity|].
    apply drop_prefix_Some, E.
  - destruct (IH H) as [w' [Hin Hs]]; exists w'; split; [right|]; assumption.
Qed.

Lemma drop_char_None (chars : list string) (s : string) :
  drop_char chars s = None -> forall w r, In w chars -> s <> w ++ r.
Proof.
  induction chars as [|w' chars IH]; simpl; intros H w r Hin Hs; [exact Hin|].
  destruct (drop_prefix w' s) as [r'|] eqn:E; [discriminate H|].
  destruct Hin as [->|Hin].
  - rewrite Hs, drop_prefix_append in E; discriminate E.
  - exact (IH H w r Hin Hs).
Qed.

Lemma run_app (chars : list string) (a b : string) :
  run chars a -> run chars b -> run chars (a ++ b).
Proof.
  intros Ha Hb; induction Ha as [|w s Hin Hs IH]; simpl; [exact Hb|].
  rewrite append_assoc; apply run_cons; assumption.
Qed.

Lemma run_reverse (chars : list string) (l : string) :
  run (map reverse chars) l -> run chars (reverse l).
Proof.
  intros H; induction H as [|w s Hin Hs IH]; [apply run_nil|].
  rewrite reverse_append; apply run_app; [exact IH|].
  apply in_map_iff in Hin; destruct Hin as [w0 [<- Hin]].
  rewrite reverse_involutive, <- (append_nil_r w0).
  apply run_cons; [exact Hin | apply run_nil].
Qed.

(** What [lstrip_from] drops is a run of the characters given. *)
Lemma lstrip_from_run (chars : list string) (fuel : nat) :
  forall s, exists l, run chars l /\ s = l ++ lstrip_from fuel chars s.
Proof.
  induction fuel as [|fuel IH]; intros s; simpl.
  - exists ""; split; [apply run_nil | reflexivity].
  - destruct (drop_char chars s) as [r|] eqn:E.
    + destruct (drop_char_Some _ _ _ E) as [w [Hin ->]].
      destruct (IH r) as [l [Hl Hr]].
      exists (w ++ l); split; [apply run_cons; assumption|].
      rewrite append_assoc, <- Hr; reflexivity.
    + exists ""; split; [apply run_nil | reflexivity].
Qed.

(** With fuel for every character, it stops at a character not given. *)
Lemma lstrip_from_done (chars : list string) (fuel : nat) :
  Forall (fun w => w <> "") chars ->
  forall s, length s <= fuel ->
            drop_char chars (lstrip_from fuel chars s) = None.
Proof.
  intros Hne; induction fuel as [|fuel IH]; intros s Hlen; simpl.
  - destruct s; [|simpl in Hlen; lia].
    clear Hlen; induction Hne as [|w chars Hw _ IHc]; simpl; [reflexivity|].
    destruct w; [contradiction Hw; reflexivity | exact IHc].
  - destruct (drop_char chars s) as [r|] eqn:E; [|exact E].
    apply IH.
    destruct (drop_char_Some _ _ _ E) as [w [Hin ->]].
    rewrite length_append in Hlen.
    assert (w <> "") by (rewrite Forall_forall in Hne; apply Hne, Hin).
    destruct w; [contradiction | simpl in Hlen; lia].
Qed.

Lemma whitespace_not_empty : Forall (fun w => w <> "") whitespace.
Proof.
  repeat (apply Forall_cons; [intros H; discriminate H|]); apply Forall_nil.
Qed.

Lemma reversed_whitespace_not_empty :
  Forall (fun w => w <> "") (map reverse whitespace).
Proof.
  repeat (apply Forall_cons; [intros H; discriminate H|]); apply Forall_nil.
Qed.

(** [str.strip] takes a run of whitespace off each end and leaves none
    at either. *)
Lemma strip_spec (s : string) :
  exists l r,
    s = l ++ strip s ++ r
    /\ blank l /\ blank r
    /\ no_leading_whitespace (strip s)
    /\ no_trailing_whitespace (strip s).
Proof.
  unfold strip, rstrip, lstrip.
  set (t := lstrip_from (length s) whitespace s).
  set (u := lstrip_from (length t) (map reverse whitespace) (reverse t)).
  destruct (lstrip_from_run whitespace (length s) s) as [l [Hl Hs]].
  destruct (lstrip_from_run (map reverse whitespace) (length t) (reverse t))
    as [l' [Hl' Ht]].
  fold t in Hs; fold u in Ht.
  assert (Et : t = reverse u ++ reverse l').
  { rewrite <- (reverse_involutive t), Ht; apply reverse_append. }
  assert (Nt : drop_char whitespace t = None).
  { apply lstrip_from_done; [apply whitespace_not_empty | apply le_n]. }
  assert (Nu : drop_char (map reverse whitespace) u = None).
  { apply lstrip_from_done; [apply reversed_whitespace_not_empty|].
    rewrite length_reverse; apply le_n. }
  exists l, (reverse l'); repeat split.
  - rewrite <- Et; exact Hs.
  - exact Hl.
  - apply run_reverse, Hl'.
  - intros w r Hin E.
    apply (drop_char_None _ _ Nt w (r ++ reverse l') Hin).
    rewrite Et, E; apply append_assoc.
  - intros w r Hin E.
    apply (drop_char_None _ _ Nu (reverse w) (reverse r)).
    + apply in_map, Hin.
    + rewrite <- (reverse_involutive u), E; apply reverse_append.
Qed.

Lemma prefix_char (a c : ascii) (s : string) :
  prefix (String a "") (String c s) = Ascii.eqb a c.
Proof.
  cbn [prefix]; destruct (ascii_dec a c) as [->|H].
  - rewrite Ascii.eqb_refl; destruct s; reflexivity.
  - symmetry; apply Ascii.eqb_neq; exact H.
Qed.

(** [replace] with a caret for [old] is the substitution character by
    character. *)
Lemma replace_caret (s : string) : replace s "^" "**" = caret_to_power s.
Proof.
  unfold replace; induction s as [|c s IH]; [reflexivity|].
  change (replace_from 0 "^" "**" (String c s))
    with (if prefix "^" (String c s)
          then "**" ++ replace_from 0 "^" "**" s
          else String c (replace_from 0 "^" "**" s)).
  rewrite prefix_char, IH, Ascii.eqb_sym; reflexivity.
Qed.

End Strings.

(** C6 -- For every input the preprocessor returns the input with every
    caret turned into the two characters of the power operator and with
    the whitespace at both ends taken off: what is taken off is a run of
    whitespace on each side, and what is left neither starts nor ends with
    a whitespace character.  It is a total function into strings.  So
    ["2 ^ 10"] is evaluated as [2 ** 10], which is [1024]. *)
Theorem preprocess_expression_spec (expression : string) :
  (exists l r,
      caret_to_power expression = l ++ preprocess_expression expression ++ r
      /\ blank l /\ blank r
      /\ no_leading_whitespace (preprocess_expression expression)
      /\ no_trailing_whitespace (preprocess_expression expression))
  /\ preprocess_expression " 2 ^ 10 " = "2 ** 10"
  /\ preprocess_expression "   " = ""
  /\ forall m, evaluate_expression (cpython m) "2 ^ 10" = OK (VInt 1024).
Proof.
  split; [|repeat split; vm_compute; reflexivity].
  unfold preprocess_expression; rewrite replace_caret.
  apply strip_spec.
Qed.

(* ------------------------------------------------------------------ *)
(** * What the evaluator returns, and what it never lets out *)

Ltac case_conditions :=
  repeat match goal with
         | |- context [if ?b then _ else _] => destruct b
         end.

Lemma returns_number_Raise (e : exn) : returns_number (Raise e).
Proof. intros v H; discriminate H. Qed.

Lemma returns_number_OK (v : value) :
  is_number v = true -> returns_number (OK v).
Proof. intros H v' E; injection E as <-; exact H. Qed.

Create HintDb numbers.
#[local] Hint Resolve returns_number_Raise : numbers.
#[local] Hint Extern 1 (returns_number (OK _)) =>
  (apply returns_number_OK; reflexivity) : numbers.

Lemma float_pow_number (m : libm) (a b : float) :
  returns_number (PyNumber.float_pow m a b).
Proof.
  unfold PyNumber.float_pow; case_conditions; auto with numbers.
  destruct (complex_pow m (a, 0%float) (b, 0%float)); simpl;
    auto with numbers.
Qed.

(** [coerce] gives no meaning to [None], and returns numbers when the
    operations it is given do. *)
Lemma coerce_None_l on_int on_float on_complex (b : value) :
  PyNumber.coerce on_int on_float on_complex VNone b = Raise TypeError.
Proof. reflexivity. Qed.

Lemma coerce_None_r on_int on_float on_complex (a : value) :
  PyNumber.coerce on_int on_float on_complex a VNone = Raise TypeError.
Proof. destruct a; reflexivity. Qed.

Lemma coerce_number on_int on_float on_complex (a b : value) :
  (forall x y, returns_number (on_int x y)) ->
  (forall x y, returns_number (on_float x y)) ->
  (forall f x y, on_complex = Some f -> returns_number (f x y)) ->
  returns_number (PyNumber.coerce on_int on_float on_complex a b).
Proof.
  intros Hi Hf Hc; unfold PyNumber.coerce.
  destruct a, b; auto with numbers;
    try (destruct on_complex as [cf|] eqn:E; [|auto with numbers]);
    repeat match goal with
           | |- returns_number (_ <- ?r ;; _) =>
               destruct r; simpl; auto with numbers
           end;
    eauto.
Qed.

(** Every function of the binary table returns a number or raises, and
    raises [TypeError] on [None]. *)
Lemma binary_operator_number (m : libm) (o : node)
    (fn : value -> value -> result value) (a b : value) :
  BINARY_OPERATORS m o = Some fn -> returns_number (fn a b).
Proof.
  intros H; destruct o; try discriminate H; injection H as <-;
    apply coerce_number; intros;
    try match goal with
        | E : Some _ = Some _ |- _ => injection E as <-
        | E : None = Some _ |- _ => discriminate E
        end;
    unfold PyNumber.c_sum, PyNumber.c_diff, PyNumber.c_prod,
      PyNumber.c_quot, PyNumber.float_div, PyNumber.float_floor_div,
      PyNumber.float_rem;
    repeat match goal with
           | p : (float * float)%type |- _ => destruct p
           end;
    case_conditions;
    try apply float_pow_number;
    repeat match goal with
           | |- returns_number (_ <- ?r ;; _) =>
               destruct r; simpl; auto with numbers
           end;
    auto with numbers; try apply float_pow_number.
Qed.

Lemma binary_operator_None (m : libm) (o : node)
    (fn : value -> value -> result value) (a b : value) :
  BINARY_OPERATORS m o = Some fn ->
  is_number a = false \/ is_number b = false ->
  fn a b = Raise TypeError.
Proof.
  intros H Hn; destruct o; try discriminate H; injection H as <-;
    destruct Hn as [Hn|Hn];
    [destruct a|destruct b| destruct a|destruct b
    |destruct a|destruct b| destruct a|destruct b
    |destruct a|destruct b| destruct a|destruct b
    |destruct a|destruct b];
    try discriminate Hn;
    first [apply coerce_None_l | apply coerce_None_r].
Qed.

Lemma unary_operator_number (o : node) (fn : value -> result value)
    (x : value) :
  UNARY_OPERATORS o = Some fn ->
  returns_number (fn x) /\ (is_number x = false -> fn x = Raise TypeError).
Proof.
  intros H; destruct o; try discriminate H; injection H as <-;
    destruct x; simpl; (split; [auto with numbers|]);
    intros E; try discriminate E; reflexivity.
Qed.

(** [NodeVisitor.generic_visit] returns nothing but [None]. *)
Lemma fold_visit_None (visit : node -> result value) (l : list node) :
  forall acc v,
    (forall a, acc = OK a -> a = VNone) ->
    fold_left (fun a child => _ <- a ;; _ <- visit child ;; OK VNone) l acc
    = OK v ->
    v = VNone.
Proof.
  induction l as [|c l IH]; intros acc v Hacc E; simpl in E;
    [exact (Hacc v E)|].
  apply (IH _ v) in E; [exact E|].
  intros a Ha; destruct acc as [x|e]; [|discriminate Ha].
  simpl in Ha; destruct (visit c); simpl in Ha;
    [injection Ha as <-; reflexivity | discriminate Ha].
Qed.

(** X1 -- Soundness of the evaluator: if a visit returns a number (any
    value but [None]), the tree visited is made of [Expression], [BinOp]
    and [UnaryOp] nodes with operators of the two tables, over constants
    that are ints, floats or bools, and of nothing else. *)
Theorem only_arithmetic_is_evaluated (m : libm) (frames : nat) :
  forall t v,
    SafeEvaluator.visit m frames t = OK v ->
    is_number v = true ->
    arithmetic t = true.
Proof.
  induction frames as [frames IH] using lt_wf_ind; intros t v E Hv.
  destruct frames as [|[|f]]; try discriminate E.
  assert (IHf : forall t' v', SafeEvaluator.visit m f t' = OK v' ->
                              is_number v' = true -> arithmetic t' = true)
    by (apply IH; lia).
  assert (Generic : forall n,
             SafeEvaluator.generic_visit
               (match f with
                | S f' => ast.generic_visit (SafeEvaluator.visit m f')
                | O => fun _ => Raise RecursionError
                end) n <> OK v).
  { intros n G; unfold SafeEvaluator.generic_visit in G.
    destruct (negb (SafeEvaluator.allowed_nodes n)); [discriminate G|].
    destruct f as [|f']; [discriminate G|].
    apply fold_visit_None in G;
      [subst v; discriminate Hv | intros a Ha; injection Ha as <-; reflexivity]. }
  destruct t; try discriminate E; try (exfalso; exact (Generic _ E)).
  - rewrite visit_Expression_eq in E; exact (IHf _ _ E Hv).
  - (* BinOp *)
    rewrite visit_BinOp_eq in E; unfold SafeEvaluator.visit_BinOp in E.
    destruct (SafeEvaluator.visit m f t1) as [vl|] eqn:E1; [|discriminate E].
    destruct (SafeEvaluator.visit m f t3) as [vr|] eqn:E3; [|discriminate E].
    simpl in E.
    destruct (BINARY_OPERATORS m t2) as [fn|] eqn:Eo; [|discriminate E].
    assert (Ho : is_binary_operator t2 = true)
      by (destruct t2; try discriminate Eo; reflexivity).
    assert (Hl : is_number vl = true).
    { destruct (is_number vl) eqn:N; [reflexivity|].
      rewrite (binary_operator_None m t2 fn vl vr Eo) in E by (left; exact N).
      discriminate E. }
    assert (Hr : is_number vr = true).
    { destruct (is_number vr) eqn:N; [reflexivity|].
      rewrite (binary_operator_None m t2 fn vl vr Eo) in E by (right; exact N).
      discriminate E. }
    simpl; rewrite (IHf _ _ E1 Hl), (IHf _ _ E3 Hr), Ho; reflexivity.
  - (* UnaryOp *)
    rewrite visit_UnaryOp_eq in E; unfold SafeEvaluator.visit_UnaryOp in E.
    destruct (SafeEvaluator.visit m f t2) as [x|] eqn:E2; [|discriminate E].
    simpl in E.
    destruct (UNARY_OPERATORS t1) as [fn|] eqn:Eo; [|discriminate E].
    assert (Ho : is_unary_operator t1 = true)
      by (destruct t1; try discriminate Eo; reflexivity).
    assert (Hx : is_number x = true).
    { destruct (is_number x) eqn:N; [reflexivity|].
      destruct (unary_operator_number t1 fn x Eo) as [_ Hn].
      rewrite (Hn N) in E; discriminate E. }
    simpl; rewrite (IHf _ _ E2 Hx), Ho; reflexivity.
  - (* Constant *)
    rewrite visit_Constant_eq in E.
    match type of E with SafeEvaluator.visit_Constant ?c = _ =>
      destruct c end;
      try discriminate E; reflexivity.
Qed.

(** The tree of [2 + 3 * 4], which evaluates to [14]. *)
Lemma only_arithmetic_is_evaluated_witness :
  arithmetic
    (BinOp (Constant (CInt 2)) Add
           (BinOp (Constant (CInt 3)) Mult (Constant (CInt 4))))
  = true.
Proof.
  apply (only_arithmetic_is_evaluated libm0 6
           (BinOp (Constant (CInt 2)) Add
                  (BinOp (Constant (CInt 3)) Mult (Constant (CInt 4))))
           (VInt 14));
    reflexivity.
Defined.

(** X2 -- A node the evaluator refuses (one outside the allow-list, or a
    constant that is no number) makes the visit raise wherever it stands
    in the tree, however many frames there are: under an operator, as an
    operator, as an argument or a field of another refused node. *)
Theorem refused_nodes_are_never_evaluated
    (m : libm) (frames : nat) (t : node) :
  occurs refused t = true -> raises (SafeEvaluator.visit m frames t).
Proof.
  apply visit_refused; exact (fun n H => H).
Qed.

(** An attribute of a constant under a unary minus. *)
Lemma refused_nodes_are_never_evaluated_witness :
  raises (SafeEvaluator.visit libm0 10
            (UnaryOp USub (PyParser.Attribute (Constant (CInt 1))))).
Proof.
  apply (refused_nodes_are_never_evaluated libm0 10
           (UnaryOp USub (PyParser.Attribute (Constant (CInt 1)))));
    reflexivity.
Defined.

(** A child that raised is what [generic_visit] raises. *)
Lemma fold_visit_raised (visit : node -> result value) (l : list node) :
  forall acc e,
    fold_left (fun a child => _ <- a ;; _ <- visit child ;; OK VNone) l acc
    = Raise e ->
    acc = Raise e \/ exists c, In c l /\ visit c = Raise e.
Proof.
  induction l as [|c l IH]; intros acc e E; simpl in E; [left; exact E|].
  destruct (IH _ _ E) as [H|[c' [Hin Hc]]].
  - destruct acc as [a|e']; [|left; exact H].
    right; exists c; split; [left; reflexivity|].
    simpl in H; destruct (visit c); [discriminate H | exact H].
  - right; exists c'; split; [right; exact Hin | exact Hc].
Qed.

(** X3 -- [ZeroDivisionError] never leaves the evaluator, whatever the
    tree, the frames and the C library: the only place that can raise it
    is the call of a binary operator, which is inside the [try].  So it
    never leaves [evaluate_expression] after a successful parse. *)
Theorem zero_division_error_never_escapes (m : libm) :
  (forall frames t,
      SafeEvaluator.visit m frames t <> Raise ZeroDivisionError)
  /\ (forall h expression tree,
         math h = m ->
         ast_parse h (preprocess_expression expression) = OK tree ->
         evaluate_expression h expression <> Raise ZeroDivisionError).
Proof.
  assert (V : forall frames t,
             SafeEvaluator.visit m frames t <> Raise ZeroDivisionError).
  { induction frames as [frames IH] using lt_wf_ind; intros t E.
    destruct frames as [|[|f]]; try discriminate E.
    assert (IHf : forall t', SafeEvaluator.visit m f t'
                             <> Raise ZeroDivisionError)
      by (apply IH; lia).
    assert (Generic : forall n,
               SafeEvaluator.generic_visit
                 (match f with
                  | S f' => ast.generic_visit (SafeEvaluator.visit m f')
                  | O => fun _ => Raise RecursionError
                  end) n <> Raise ZeroDivisionError).
    { intros n G; unfold SafeEvaluator.generic_visit in G.
      destruct (negb (SafeEvaluator.allowed_nodes n)); [discriminate G|].
      destruct f as [|f']; [discriminate G|].
      apply fold_visit_raised in G; destruct G as [G|[c [_ G]]];
        [discriminate G | revert G; apply IH; lia]. }
    destruct t; try discriminate E; try exact (Generic _ E).
    - rewrite visit_Expression_eq in E; exact (IHf _ E).
    - rewrite visit_BinOp_eq in E; unfold SafeEvaluator.visit_BinOp in E.
      destruct (SafeEvaluator.visit m f t1) as [vl|e1] eqn:E1;
        [|exact (IHf t1 (eq_trans E1 E))].
      destruct (SafeEvaluator.visit m f t3) as [vr|e3] eqn:E3;
        [|exact (IHf t3 (eq_trans E3 E))].
      simpl in E.
      destruct (BINARY_OPERATORS m t2) as [fn|]; [|discriminate E].
      destruct (fn vl vr) as [v|[]]; discriminate E.
    - rewrite visit_UnaryOp_eq in E; unfold SafeEvaluator.visit_UnaryOp in E.
      destruct (SafeEvaluator.visit m f t2) as [x|e2] eqn:E2;
        [|exact (IHf t2 (eq_trans E2 E))].
      simpl in E.
      destruct t1; try discriminate E; destruct x; discriminate E.
    - rewrite visit_Constant_eq in E.
      match type of E with SafeEvaluator.visit_Constant ?c = _ =>
        destruct c end;
        discriminate E. }
  split; [exact V|].
  intros h expression tree <- P E.
  rewrite (evaluate_parsed _ _ _ P) in E; exact (V _ _ E).
Qed.

(* ------------------------------------------------------------------ *)
(** * What the evaluator can raise *)

Lemma fails_within_OK {A : Type} (P : exn -> Prop) (a : A) :
  fails_within P (OK a).
Proof. intros e H; discriminate H. Qed.

Lemma fails_within_Raise {A : Type} (P : exn -> Prop) (e : exn) :
  P e -> fails_within P (@Raise A e).
Proof. intros H e' E; injection E as <-; exact H. Qed.

Lemma fails_within_bind {A B : Type} (P : exn -> Prop) (r : result A)
    (k : A -> result B) :
  fails_within P r -> (forall a, fails_within P (k a)) ->
  fails_within P (x <- r ;; k x).
Proof.
  intros Hr Hk e E; destruct r as [a|e']; simpl in E;
    [exact (Hk a e E) | injection E as <-; apply Hr; reflexivity].
Qed.

Section NumericErrors.

Variable m : libm.

Lemma numeric_TypeError : numeric_error m TypeError.
Proof. left; reflexivity. Qed.

Lemma numeric_OverflowError : numeric_error m OverflowError.
Proof. right; left; reflexivity. Qed.

Lemma numeric_ZeroDivisionError : numeric_error m ZeroDivisionError.
Proof. right; right; left; reflexivity. Qed.

Lemma PyLong_AsDouble_fails (z : Z) :
  fails_within (numeric_error m) (PyNumber.PyLong_AsDouble z).
Proof.
  unfold PyNumber.PyLong_AsDouble; case_conditions;
    [apply fails_within_Raise, numeric_OverflowError | apply fails_within_OK].
Qed.

Lemma to_double_fails (v : value) :
  fails_within (numeric_error m) (PyNumber.to_double v).
Proof.
  destruct v; simpl;
    first [apply PyLong_AsDouble_fails | apply fails_within_OK
          | apply fails_within_Raise, numeric_TypeError].
Qed.

Lemma to_complex_fails (v : value) :
  fails_within (numeric_error m) (PyNumber.to_complex v).
Proof.
  destruct v; unfold PyNumber.to_complex;
    first [apply fails_within_OK
          | apply fails_within_bind;
            [apply to_double_fails | intros; apply fails_within_OK]].
Qed.

Lemma complex_pow_fails (x y : float * float) :
  fails_within (numeric_error m)
    (c <- complex_pow m x y ;; OK (VComplex (fst c) (snd c))).
Proof.
  intros e E; destruct (complex_pow m x y) as [c|e'] eqn:Ec; simpl in E;
    [discriminate E|].
  injection E as <-; right; right; right; exists x, y; exact Ec.
Qed.

Lemma float_pow_fails (a b : float) :
  fails_within (numeric_error m) (PyNumber.float_pow m a b).
Proof.
  unfold PyNumber.float_pow; case_conditions;
    first [apply fails_within_OK | apply complex_pow_fails
          | apply fails_within_Raise;
            first [apply numeric_ZeroDivisionError
                  | apply numeric_OverflowError]].
Qed.

Lemma coerce_fails on_int on_float on_complex (a b : value) :
  (forall x y, fails_within (numeric_error m) (on_int x y)) ->
  (forall x y, fails_within (numeric_error m) (on_float x y)) ->
  (forall f x y,
      on_complex = Some f -> fails_within (numeric_error m) (f x y)) ->
  fails_within (numeric_error m)
    (PyNumber.coerce on_int on_float on_complex a b).
Proof.
  intros Hi Hf Hc; unfold PyNumber.coerce.
  destruct a, b;
    try (apply fails_within_Raise, numeric_TypeError);
    try apply Hi;
    try (destruct on_complex as [cf|] eqn:E;
         [|apply fails_within_Raise, numeric_TypeError]);
    repeat (apply fails_within_bind;
            [first [apply to_double_fails | apply to_complex_fails]
            |intros ?]);
    eauto.
Qed.

(** Every function of the binary table raises nothing but the three
    arithmetic errors and what the C library raises. *)
Lemma binary_operator_error (o : node)
    (fn : value -> value -> result value) (a b : value) :
  BINARY_OPERATORS m o = Some fn -> fails_within (numeric_error m) (fn a b).
Proof.
  intros H; destruct o; try discriminate H; injection H as <-;
    apply coerce_fails; intros;
    try match goal with
        | E : Some _ = Some _ |- _ => injection E as <-
        | E : None = Some _ |- _ => discriminate E
        end;
    unfold PyNumber.c_sum, PyNumber.c_diff, PyNumber.c_prod,
      PyNumber.c_quot, PyNumber.float_div, PyNumber.float_floor_div,
      PyNumber.float_rem, PyNumber.long_true_divide;
    repeat match goal with
           | p : (float * float)%type |- _ => destruct p
           end;
    try apply float_pow_fails; try apply complex_pow_fails;
    case_conditions;
    repeat (apply fails_within_bind;
            [first [apply PyLong_AsDouble_fails | apply fails_within_OK
                   | apply fails_within_Raise;
                     first [apply numeric_ZeroDivisionError
                           | apply numeric_OverflowError]]
            |intros ?]);
    first [apply fails_within_OK | apply float_pow_fails
          | apply fails_within_Raise;
            first [apply numeric_ZeroDivisionError
                  | apply numeric_OverflowError]].
Qed.

End NumericErrors.

Lemma unary_operator_error (o : node) (fn : value -> result value)
    (x : value) (e : exn) :
  UNARY_OPERATORS o = Some fn -> fn x = Raise e -> e = TypeError.
Proof.
  intros H E; destruct o; try discriminate H; injection H as <-;
    destruct x; simpl in E; try discriminate E;
    injection E as <-; reflexivity.
Qed.

Lemma visit_raises (m : libm) (frames : nat) :
  forall t e,
    SafeEvaluator.visit m frames t = Raise e -> evaluator_error m e.
Proof.
  induction frames as [frames IH] using lt_wf_ind; intros t e E.
  assert (Recursion : evaluator_error m RecursionError)
    by (right; right; right; left; reflexivity).
  destruct frames as [|[|f]];
    try (injection E as <-; exact Recursion).
  assert (IHf : forall t' e', SafeEvaluator.visit m f t' = Raise e' ->
                              evaluator_error m e')
    by (apply IH; lia).
  assert (Generic : forall n,
             SafeEvaluator.generic_visit
               (match f with
                | S f' => ast.generic_visit (SafeEvaluator.visit m f')
                | O => fun _ => Raise RecursionError
                end) n = Raise e -> evaluator_error m e).
  { intros n G; unfold SafeEvaluator.generic_visit in G.
    destruct (negb (SafeEvaluator.allowed_nodes n));
      [injection G as <-; left; eexists; reflexivity|].
    destruct f as [|f']; [injection G as <-; exact Recursion|].
    apply fold_visit_raised in G; destruct G as [G|[c [_ G]]];
      [discriminate G | revert G; apply IH; lia]. }
  destruct t; try exact (Generic _ E);
    try (injection E as <-; left; eexists; reflexivity).
  - rewrite visit_Expression_eq in E; exact (IHf _ _ E).
  - rewrite visit_BinOp_eq in E; unfold SafeEvaluator.visit_BinOp in E.
    destruct (SafeEvaluator.visit m f t1) as [vl|e1] eqn:E1;
      [|injection E as <-; exact (IHf _ _ E1)].
    destruct (SafeEvaluator.visit m f t3) as [vr|e3] eqn:E3;
      [|injection E as <-; exact (IHf _ _ E3)].
    simpl in E.
    destruct (BINARY_OPERATORS m t2) as [fn|] eqn:Eo;
      [|injection E as <-; left; eexists; reflexivity].
    destruct (fn vl vr) as [v|e0] eqn:Ef; [discriminate E|].
    pose proof (binary_operator_error m t2 fn vl vr Eo e0 Ef) as N.
    destruct N as [->|[->|[->|N]]];
      [injection E as <-; right; left; reflexivity
      |injection E as <-; right; right; left; reflexivity
      |injection E as <-; left; eexists; reflexivity|].
    destruct e0; injection E as <-;
      try (left; eexists; reflexivity);
      right; right; right; right; exact N.
  - rewrite visit_UnaryOp_eq in E; unfold SafeEvaluator.visit_UnaryOp in E.
    destruct (SafeEvaluator.visit m f t2) as [x|e2] eqn:E2;
      [|injection E as <-; exact (IHf _ _ E2)].
    simpl in E.
    destruct (UNARY_OPERATORS t1) as [fn|] eqn:Eo;
      [|injection E as <-; left; eexists; reflexivity].
    rewrite (unary_operator_error t1 fn x e Eo E); right; left; reflexivity.
  - rewrite visit_Constant_eq in E.
    match type of E with SafeEvaluator.visit_Constant ?c = _ =>
      destruct c end;
      try discriminate E; injection E as <-; left; eexists; reflexivity.
Qed.

(** X4 -- The complete list of what a visit can raise, for every tree,
    every number of frames and every C library: a [ValueError] (all the
    program raises, the translated [ZeroDivisionError] included), the
    host's [TypeError], [OverflowError] and [RecursionError], which no
    handler of the program catches, and whatever the C library's complex
    power raises.  Nothing else leaves the evaluator. *)
Theorem evaluator_raises_only_these
    (m : libm) (frames : nat) (t : node) (e : exn) :
  SafeEvaluator.visit m frames t = Raise e -> evaluator_error m e.
Proof. exact (visit_raises m frames t e). Qed.

(** The int [10 ** 400] divided by the float zero: the conversion of the
    int overflows. *)
Lemma evaluator_raises_only_these_witness :
  evaluator_error libm0 OverflowError.
Proof.
  apply (evaluator_raises_only_these libm0 6
           (BinOp (BinOp (Constant (CInt 10)) Pow (Constant (CInt 400)))
                  Div (Constant (CFloat 0)))
           OverflowError).
  vm_compute; reflexivity.
Defined.

(** In the count of [SafeEvaluator.visit], three units for each level of
    the tree are enough. *)
Lemma visit_enough_frames (m : libm) (t : node) :
  (forall x y, complex_pow m x y <> Raise RecursionError) ->
  forall frames,
    3 * depth t <= frames ->
    SafeEvaluator.visit m frames t <> Raise RecursionError.
Proof.
  intros Hm; induction t; intros frames Hf E; simpl in Hf;
    destruct frames as [|[|f]]; try lia;
    try (destruct f as [|f']; [lia|]; simpl in E; discriminate E).
  - rewrite visit_Expression_eq in E; apply (IHt f); [lia | exact E].
  - destruct f as [|f']; [lia|].
    change (SafeEvaluator.visit m (S (S (S f'))) (Expr t))
      with (_ <- SafeEvaluator.visit m f' t ;; OK VNone) in E.
    destruct (SafeEvaluator.visit m f' t) as [v|e] eqn:Et;
      [discriminate E|].
    injection E as ->; apply (IHt f'); [lia | exact Et].
  - rewrite visit_BinOp_eq in E; unfold SafeEvaluator.visit_BinOp in E.
    destruct (SafeEvaluator.visit m f t1) as [vl|e1] eqn:E1;
      [|injection E as ->; apply (IHt1 f); [lia | exact E1]].
    destruct (SafeEvaluator.visit m f t3) as [vr|e3] eqn:E3;
      [|injection E as ->; apply (IHt3 f); [lia | exact E3]].
    simpl in E.
    destruct (BINARY_OPERATORS m t2) as [fn|] eqn:Eo; [|discriminate E].
    destruct (fn vl vr) as [v|e0] eqn:Ef; [discriminate E|].
    destruct e0; try discriminate E.
    destruct (binary_operator_error m t2 fn vl vr Eo _ Ef)
      as [N|[N|[N|[x [y N]]]]];
      try discriminate N; exact (Hm x y N).
  - rewrite visit_UnaryOp_eq in E; unfold SafeEvaluator.visit_UnaryOp in E.
    destruct (SafeEvaluator.visit m f t2) as [x|e2] eqn:E2;
      [|injection E as ->; apply (IHt2 f); [lia | exact E2]].
    simpl in E.
    destruct (UNARY_OPERATORS t1) as [fn|] eqn:Eo; [|discriminate E].
    apply (unary_operator_error t1 fn x _ Eo) in E; discriminate E.
  - rewrite visit_Constant_eq in E.
    match type of E with SafeEvaluator.visit_Constant ?c = _ =>
      destruct c end;
      discriminate E.
Qed.

(** X5 -- [RecursionError] comes only from a lack of stack, never from
    the shape of the tree: unless the C library itself raises it, every
    tree has an outcome other than [RecursionError], a value or another
    error, that the visit gives with every budget large enough. *)
Theorem recursion_error_only_for_lack_of_frames (m : libm) (t : node) :
  (forall x y, complex_pow m x y <> Raise RecursionError) ->
  exists enough r,
    r <> Raise RecursionError
    /\ forall frames,
         enough <= frames -> SafeEvaluator.visit m frames t = r.
Proof.
  intros Hm.
  exists (3 * depth t), (SafeEvaluator.visit m (3 * depth t) t).
  split; [apply (visit_enough_frames m t Hm); apply le_n|].
  intros frames H.
  replace frames with ((frames - 3 * depth t) + 3 * depth t) at 1 by lia.
  apply visit_more_frames;
    [reflexivity | apply (visit_enough_frames m t Hm); apply le_n].
Qed.

(** The tree of [-(1 + 2)]. *)
Lemma recursion_error_only_for_lack_of_frames_witness :
  exists enough r,
    r <> Raise RecursionError
    /\ forall frames,
         enough <= frames ->
         SafeEvaluator.visit libm0 frames
           (Expression
              (UnaryOp USub
                 (BinOp (Constant (CInt 1)) Add (Constant (CInt 2)))))
         = r.
Proof.
  apply (recursion_error_only_for_lack_of_frames libm0
           (Expression
              (UnaryOp USub
                 (BinOp (Constant (CInt 1)) Add (Constant (CInt 2)))))).
  intros x y H; discriminate H.
Defined.

(* ------------------------------------------------------------------ *)
(** * Operands, operators and what they return *)

(** X6 -- The operands of an operation are visited before its operator
    is looked at, the left one first: the operation raises what its first
    failing operand raises, and an operator outside the tables is
    reported, by the name of its class, only when every operand has been
    evaluated.  The operator node itself is never visited. *)
Theorem operands_are_evaluated_first
    (m : libm) (frames : nat) (l o r : node) :
  (forall e,
      SafeEvaluator.visit m frames l = Raise e ->
      SafeEvaluator.visit m (S (S frames)) (BinOp l o r) = Raise e)
  /\ (forall vl e,
         SafeEvaluator.visit m frames l = OK vl ->
         SafeEvaluator.visit m frames r = Raise e ->
         SafeEvaluator.visit m (S (S frames)) (BinOp l o r) = Raise e)
  /\ (forall vl vr,
         SafeEvaluator.visit m frames l = OK vl ->
         SafeEvaluator.visit m frames r = OK vr ->
         is_binary_operator o = false ->
         SafeEvaluator.visit m (S (S frames)) (BinOp l o r)
         = Raise (ValueError
                    ("Недопустимая бинарная операция: " ++ __name__ o)))
  /\ (forall e,
         SafeEvaluator.visit m frames r = Raise e ->
         SafeEvaluator.visit m (S (S frames)) (UnaryOp o r) = Raise e)
  /\ (forall v,
         SafeEvaluator.visit m frames r = OK v ->
         is_unary_operator o = false ->
         SafeEvaluator.visit m (S (S frames)) (UnaryOp o r)
         = Raise (ValueError
                    ("Недопустимая унарная операция: " ++ __name__ o))).
Proof.
  repeat split.
  - intros e H; rewrite visit_BinOp_eq; unfold SafeEvaluator.visit_BinOp.
    rewrite H; reflexivity.
  - intros vl e Hl Hr; rewrite visit_BinOp_eq;
      unfold SafeEvaluator.visit_BinOp.
    rewrite Hl, Hr; reflexivity.
  - intros vl vr Hl Hr Ho.
    rewrite (visit_BinOp_operands _ _ _ o _ _ _ Hl Hr).
    destruct o; try discriminate Ho; reflexivity.
  - intros e H; rewrite visit_UnaryOp_eq; unfold SafeEvaluator.visit_UnaryOp.
    rewrite H; reflexivity.
  - intros v H Ho; rewrite visit_UnaryOp_eq;
      unfold SafeEvaluator.visit_UnaryOp.
    rewrite H; destruct o; try discriminate Ho; reflexivity.
Qed.

(** A visit of a node that returns nothing returns [None] or raises. *)
Lemma returns_nothing_None (m : libm) (frames : nat) :
  forall t v,
    returns_nothing t = true ->
    SafeEvaluator.visit m frames t = OK v -> v = VNone.
Proof.
  induction frames as [frames IH] using lt_wf_ind; intros t v Ht E.
  destruct frames as [|[|f]]; try discriminate E.
  assert (Generic : forall n,
             SafeEvaluator.generic_visit
               (match f with
                | S f' => ast.generic_visit (SafeEvaluator.visit m f')
                | O => fun _ => Raise RecursionError
                end) n = OK v -> v = VNone).
  { intros n G; unfold SafeEvaluator.generic_visit in G.
    destruct (negb (SafeEvaluator.allowed_nodes n)); [discriminate G|].
    destruct f as [|f']; [discriminate G|].
    apply fold_visit_None in G;
      [exact G | intros a Ha; injection Ha as <-; reflexivity]. }
  destruct t; try discriminate Ht; try exact (Generic _ E).
  rewrite visit_Expression_eq in E; apply (IH f) with (t := t);
    [lia | exact Ht | exact E].
Qed.

(** X7 -- [None] comes out of a visit exactly where the visit ends in
    [NodeVisitor.generic_visit]: at an [Expr] statement or at one of the
    allow-listed markers ([Load] and the operator classes), alone or as
    the body of an [Expression].  A marker visited with a budget large
    enough returns [None]; as an operand, such a node makes every
    operator of the tables raise [TypeError]. *)
Theorem none_comes_from_generic_visit_only (m : libm) :
  (forall frames t v,
      SafeEvaluator.visit m frames t = OK v ->
      (v = VNone <-> returns_nothing t = true))
  /\ (forall n,
         is_marker n = true ->
         exists enough,
           forall frames,
             enough <= frames -> SafeEvaluator.visit m frames n = OK VNone)
  /\ (forall frames l o r vl vr,
         SafeEvaluator.visit m frames l = OK vl ->
         SafeEvaluator.visit m frames r = OK vr ->
         is_binary_operator o = true ->
         returns_nothing l = true \/ returns_nothing r = true ->
         SafeEvaluator.visit m (S (S frames)) (BinOp l o r)
         = Raise TypeError)
  /\ (forall frames o x v,
         SafeEvaluator.visit m frames x = OK v ->
         is_unary_operator o = true ->
         returns_nothing x = true ->
         SafeEvaluator.visit m (S (S frames)) (UnaryOp o x)
         = Raise TypeError).
Proof.
  repeat split.
  - intros ->.
    destruct (returns_nothing t) eqn:Ht; [reflexivity|].
    exfalso; revert frames H Ht; induction t; intros frames H Ht;
      try discriminate Ht;
      destruct frames as [|[|f]]; try discriminate H.
    + rewrite visit_Expression_eq in H; exact (IHt f H Ht).
    + rewrite visit_BinOp_eq in H; unfold SafeEvaluator.visit_BinOp in H.
      destruct (SafeEvaluator.visit m f t1) as [vl|]; [|discriminate H].
      destruct (SafeEvaluator.visit m f t3) as [vr|]; [|discriminate H].
      simpl in H.
      destruct (BINARY_OPERATORS m t2) as [fn|] eqn:Eo; [|discriminate H].
      destruct (fn vl vr) as [v|e] eqn:Ef; [|destruct e; discriminate H].
      injection H as ->.
      pose proof (binary_operator_number m t2 fn vl vr Eo VNone Ef) as N.
      discriminate N.
    + rewrite visit_UnaryOp_eq in H; unfold SafeEvaluator.visit_UnaryOp in H.
      destruct (SafeEvaluator.visit m f t2) as [x|]; [|discriminate H].
      simpl in H.
      destruct (UNARY_OPERATORS t1) as [fn|] eqn:Eo; [|discriminate H].
      destruct (unary_operator_number t1 fn x Eo) as [N _].
      pose proof (N VNone H) as N'; discriminate N'.
    + rewrite visit_Constant_eq in H.
      match type of H with SafeEvaluator.visit_Constant ?c = _ =>
        destruct c end;
        discriminate H.
  - intros Ht; exact (returns_nothing_None m frames t v Ht H).
  - intros n Hn; exists 3; intros frames H.
    destruct frames as [|[|[|f]]]; try lia.
    destruct n; try discriminate Hn; reflexivity.
  - intros frames l o r vl vr Hl Hr Ho Hn.
    rewrite (visit_BinOp_operands _ _ _ o _ _ _ Hl Hr).
    destruct (BINARY_OPERATORS m o) as [fn|] eqn:Eo;
      [|destruct o; discriminate].
    rewrite (binary_operator_None m o fn vl vr Eo); [reflexivity|].
    destruct Hn as [Hn|Hn];
      [left; rewrite (returns_nothing_None m frames l vl Hn Hl)
      |right; rewrite (returns_nothing_None m frames r vr Hn Hr)];
      reflexivity.
  - intros frames o x v Hx Ho Hn.
    rewrite visit_UnaryOp_eq; unfold SafeEvaluator.visit_UnaryOp.
    rewrite Hx; simpl.
    rewrite (returns_nothing_None m frames x v Hn Hx).
    destruct o; try discriminate Ho; reflexivity.
Qed.

(* ------------------------------------------------------------------ *)
(** * Integer arithmetic *)

(** In the count of [SafeEvaluator.visit], two units for each level of a
    tree of int literals are enough for its value. *)
Lemma visit_int_expr (m : libm) (e : int_expr) :
  forall frames,
    2 * int_height e <= frames ->
    SafeEvaluator.visit m frames (node_of_int_expr e)
    = match int_value e with
      | Some z => OK (VInt z)
      | None => Raise division_by_zero
      end.
Proof.
  induction e as [z|e IH|e IH|o a IHa b IHb]; intros frames H;
    simpl in H; destruct frames as [|[|f]]; try lia.
  - reflexivity.
  - simpl node_of_int_expr; rewrite visit_UnaryOp_eq.
    unfold SafeEvaluator.visit_UnaryOp; rewrite IH by lia.
    simpl; destruct (int_value e); reflexivity.
  - simpl node_of_int_expr; rewrite visit_UnaryOp_eq.
    unfold SafeEvaluator.visit_UnaryOp; rewrite IH by lia.
    simpl; destruct (int_value e); reflexivity.
  - simpl node_of_int_expr; rewrite visit_BinOp_eq.
    unfold SafeEvaluator.visit_BinOp; rewrite IHa, IHb by lia.
    simpl; destruct (int_value a) as [x|]; [|reflexivity].
    destruct (int_value b) as [y|]; [|reflexivity].
    destruct o; simpl; try reflexivity;
      destruct (y =? 0)%Z; reflexivity.
Qed.

(** X8 -- On a tree of int literals under [+], [-], [*], [//], [%] and
    the two unary signs, the evaluator computes the exact integer value,
    with [//] rounding toward minus infinity and [%] taking the sign of
    the divisor, whatever the size of the numbers and whatever the C
    library; a zero divisor anywhere on the way gives the division-by-zero
    [ValueError].  This is what the visit gives with every budget large
    enough, and with a smaller one the only other outcome is
    [RecursionError]. *)
Theorem integer_arithmetic_is_exact (m : libm) (e : int_expr) :
  (exists enough,
      forall frames,
        enough <= frames ->
        SafeEvaluator.visit m frames (node_of_int_expr e)
        = match int_value e with
          | Some z => OK (VInt z)
          | None => Raise division_by_zero
          end)
  /\ (forall frames,
         SafeEvaluator.visit m frames (node_of_int_expr e)
         = Raise RecursionError
         \/ SafeEvaluator.visit m frames (node_of_int_expr e)
            = match int_value e with
              | Some z => OK (VInt z)
              | None => Raise division_by_zero
              end).
Proof.
  split; [exists (2 * int_height e); apply visit_int_expr|].
  intros frames.
  destruct (SafeEvaluator.visit m frames (node_of_int_expr e))
    as [v|x] eqn:E.
  - right.
    rewrite <- (visit_more_frames m frames (2 * int_height e) _ _ E)
      by discriminate.
    apply visit_int_expr; lia.
  - assert (D : x = RecursionError \/ x <> RecursionError)
      by (destruct x; (left; reflexivity) || (right; discriminate)).
    destruct D as [->|D]; [left; reflexivity | right].
    rewrite <- (visit_more_frames m frames (2 * int_height e) _ _ E)
      by (intros N; injection N as N; exact (D N)).
    apply visit_int_expr; lia.
Qed.

(** X9 -- Floor division and modulo of ints go together: for a divisor
    other than zero, [a // b] and [a % b] are ints [q] and [r] with
    [a = q * b + r] and [r] between zero and [b], zero included and [b]
    not; and the evaluator itself finds [(a // b) * b + a % b] equal to
    [a]. *)
Theorem floor_division_and_modulo_agree
    (m : libm) (a b : int_expr) (x y : Z) (frames : nat) :
  int_value a = Some x ->
  int_value b = Some y ->
  y <> 0%Z ->
  2 * (3 + Nat.max (int_height a) (int_height b)) <= frames ->
  exists q r,
    SafeEvaluator.visit m frames (node_of_int_expr (IBin IFloorDiv a b))
    = OK (VInt q)
    /\ SafeEvaluator.visit m frames (node_of_int_expr (IBin IMod a b))
       = OK (VInt r)
    /\ SafeEvaluator.visit m frames
         (node_of_int_expr
            (IBin IAdd (IBin IMul (IBin IFloorDiv a b) b) (IBin IMod a b)))
       = OK (VInt x)
    /\ (x = q * y + r)%Z
    /\ ((0 <= r < y)%Z \/ (y < r <= 0)%Z).
Proof.
  intros Hx Hy Hne Hf.
  assert (Ey : (y =? 0)%Z = false) by (apply Z.eqb_neq; exact Hne).
  exists (x / y)%Z, (x mod y)%Z.
  rewrite (visit_int_expr m (IBin IFloorDiv a b)) by (simpl; lia).
  rewrite (visit_int_expr m (IBin IMod a b)) by (simpl; lia).
  rewrite (visit_int_expr m
             (IBin IAdd (IBin IMul (IBin IFloorDiv a b) b) (IBin IMod a b)))
    by (cbn [int_height]; lia).
  simpl int_value; rewrite Hx, Hy; simpl; rewrite Ey; simpl.
  pose proof (Z.div_mod x y Hne) as D.
  set (q := (x / y)%Z) in *; set (r := (x mod y)%Z) in *.
  assert (E : (q * y + r)%Z = x) by (rewrite Z.mul_comm; symmetry; exact D).
  repeat split.
  - rewrite E; reflexivity.
  - symmetry; exact E.
  - subst r; destruct (Z.lt_total 0 y) as [Hp|[Hz|Hn]].
    + left; apply Z.mod_pos_bound; exact Hp.
    + contradiction Hne; symmetry; exact Hz.
    + right; apply Z.mod_neg_bound; exact Hn.
Qed.

(** [-7] and [2]: the quotient is [-4] and the remainder [1]. *)
Lemma floor_division_and_modulo_agree_witness :
  exists q r,
    SafeEvaluator.visit libm0 10
      (node_of_int_expr (IBin IFloorDiv (INeg (ILit 7)) (ILit 2)))
    = OK (VInt q)
    /\ SafeEvaluator.visit libm0 10
         (node_of_int_expr (IBin IMod (INeg (ILit 7)) (ILit 2)))
       = OK (VInt r)
    /\ SafeEvaluator.visit libm0 10
         (node_of_int_expr
            (IBin IAdd
               (IBin IMul (IBin IFloorDiv (INeg (ILit 7)) (ILit 2)) (ILit 2))
               (IBin IMod (INeg (ILit 7)) (ILit 2))))
       = OK (VInt (-7))
    /\ (-7 = q * 2 + r)%Z
    /\ ((0 <= r < 2)%Z \/ (2 < r <= 0)%Z).
Proof.
  apply (floor_division_and_modulo_agree libm0
           (INeg (ILit 7)) (ILit 2) (-7) 2 10);
    [reflexivity | reflexivity | lia | vm_compute; lia].
Defined.

Lemma float_pow_inexact (m : libm) (a b : float) (v : value) :
  PyNumber.float_pow m a b = OK v -> is_inexact v = true.
Proof.
  unfold PyNumber.float_pow; case_conditions; intros E;
    try (injection E as <-; reflexivity); try discriminate E.
  destruct (complex_pow m (a, 0%float) (b, 0%float)); simpl in E;
    [injection E as <-; reflexivity | discriminate E].
Qed.

(** X10 -- A power of two ints with an exponent that is not negative is
    the exact integer power, computed without the C library; with a
    negative exponent the operands are converted to floats and the
    result, when there is one, is never an int. *)
Theorem integer_power (m : libm) (frames : nat) (l r : node) (x y : Z) :
  SafeEvaluator.visit m frames l = OK (VInt x) ->
  SafeEvaluator.visit m frames r = OK (VInt y) ->
  ((0 <= y)%Z ->
   SafeEvaluator.visit m (S (S frames)) (BinOp l Pow r) = OK (VInt (x ^ y)))
  /\ ((y < 0)%Z ->
      forall v,
        SafeEvaluator.visit m (S (S frames)) (BinOp l Pow r) = OK v ->
        is_inexact v = true).
Proof.
  intros Hl Hr; rewrite (visit_BinOp_operands _ _ _ Pow _ _ _ Hl Hr).
  change (BINARY_OPERATORS m Pow) with (Some (op.pow m)); cbv beta iota.
  change (op.pow m (VInt x) (VInt y))
    with (if (y <? 0)%Z
          then a <- PyNumber.PyLong_AsDouble x ;;
               b <- PyNumber.PyLong_AsDouble y ;;
               PyNumber.float_pow m a b
          else OK (VInt (x ^ y))).
  split; intros Hy.
  - destruct (Z.ltb_spec y 0); [lia | reflexivity].
  - destruct (Z.ltb_spec y 0); [|lia].
    intros v E.
    destruct (PyNumber.PyLong_AsDouble x) as [a|e];
      [|destruct e; discriminate E].
    destruct (PyNumber.PyLong_AsDouble y) as [b|e];
      [|destruct e; discriminate E].
    simpl in E.
    destruct (PyNumber.float_pow m a b) as [v'|e] eqn:Ep;
      [|destruct e; discriminate E].
    injection E as <-; exact (float_pow_inexact m a b v' Ep).
Qed.

(** [2 ** 10]. *)
Lemma integer_power_witness :
  SafeEvaluator.visit libm0 4
    (BinOp (Constant (CInt 2)) Pow (Constant (CInt 10)))
  = OK (VInt 1024).
Proof.
  apply (proj1 (integer_power libm0 2 (Constant (CInt 2))
                  (Constant (CInt 10)) 2 10 eq_refl eq_refl)).
  lia.
Defined.

(** X11 -- A [bool] constant is returned as it is when it stands alone,
    and counts as the int [1] or [0] as an operand: on either side of any
    binary operation and under any unary one it can be replaced by that
    int without changing what the visit returns or raises. *)
Theorem booleans_are_integers
    (m : libm) (frames : nat) (b : bool) (o t : node) :
  SafeEvaluator.visit m (S (S frames)) (Constant (CBool b)) = OK (VBool b)
  /\ SafeEvaluator.visit m frames (BinOp (Constant (CBool b)) o t)
     = SafeEvaluator.visit m frames
         (BinOp (Constant (CInt (PyNumber.Z_of_bool b))) o t)
  /\ SafeEvaluator.visit m frames (BinOp t o (Constant (CBool b)))
     = SafeEvaluator.visit m frames
         (BinOp t o (Constant (CInt (PyNumber.Z_of_bool b))))
  /\ SafeEvaluator.visit m frames (UnaryOp o (Constant (CBool b)))
     = SafeEvaluator.visit m frames
         (UnaryOp o (Constant (CInt (PyNumber.Z_of_bool b)))).
Proof.
  split; [reflexivity|].
  assert (L : forall fn v, BINARY_OPERATORS m o = Some fn ->
                fn (VBool b) v = fn (VInt (PyNumber.Z_of_bool b)) v).
  { intros fn v H; destruct o; try discriminate H; injection H as <-;
      destruct v; reflexivity. }
  assert (R : forall fn v, BINARY_OPERATORS m o = Some fn ->
                fn v (VBool b) = fn v (VInt (PyNumber.Z_of_bool b))).
  { intros fn v H; destruct o; try discriminate H; injection H as <-;
      destruct v; reflexivity. }
  destruct frames as [|[|f]]; [repeat split; reflexivity ..|].
  rewrite !visit_BinOp_eq, !visit_UnaryOp_eq.
  unfold SafeEvaluator.visit_BinOp, SafeEvaluator.visit_UnaryOp.
  destruct f as [|[|f']]; [repeat split; reflexivity ..|].
  rewrite !visit_Constant_eq; simpl SafeEvaluator.visit_Constant.
  repeat split.
  - destruct (SafeEvaluator.visit m (S (S f')) t) as [v|]; [|reflexivity].
    simpl; destruct (BINARY_OPERATORS m o) as [fn|] eqn:Eo; [|reflexivity].
    rewrite (L fn v eq_refl); reflexivity.
  - destruct (SafeEvaluator.visit m (S (S f')) t) as [v|]; [|reflexivity].
    simpl; destruct (BINARY_OPERATORS m o) as [fn|] eqn:Eo; [|reflexivity].
    rewrite (R fn v eq_refl); reflexivity.
  - simpl; destruct o; reflexivity.
Qed.

Lemma float_opp_involutive (f : float) : (- - f)%float = f.
Proof.
  apply Prim2SF_inj; rewrite !opp_spec.
  destruct (Prim2SF f); simpl; try rewrite Bool.negb_involutive;
    reflexivity.
Qed.

(** X12 -- The unary operators on a number: plus returns it (a [bool] as
    the int it is), and two minus signs in a row undo each other, on
    ints, floats (signed zeros, infinities and NaN included) and complex
    numbers alike. *)
Theorem unary_plus_and_double_minus
    (m : libm) (frames : nat) (t : node) (v : value) :
  SafeEvaluator.visit m frames t = OK v ->
  is_number v = true ->
  SafeEvaluator.visit m (2 + frames) (UnaryOp UAdd t) = OK (as_int v)
  /\ SafeEvaluator.visit m (4 + frames) (UnaryOp USub (UnaryOp USub t))
     = OK (as_int v).
Proof.
  intros H Hv.
  assert (P : SafeEvaluator.visit m (2 + frames) (UnaryOp UAdd t)
              = op.pos v).
  { change (2 + frames) with (S (S frames)).
    rewrite visit_UnaryOp_eq; unfold SafeEvaluator.visit_UnaryOp.
    rewrite H; reflexivity. }
  assert (N : SafeEvaluator.visit m (4 + frames)
                (UnaryOp USub (UnaryOp USub t))
              = x <- op.neg v ;; op.neg x).
  { change (4 + frames) with (S (S (S (S frames)))).
    rewrite visit_UnaryOp_eq; unfold SafeEvaluator.visit_UnaryOp.
    rewrite visit_UnaryOp_eq; unfold SafeEvaluator.visit_UnaryOp.
    rewrite H; reflexivity. }
  rewrite P, N; destruct v as [|b|z|f|re im]; try discriminate Hv; simpl.
  - split; [reflexivity | rewrite Z.opp_involutive; reflexivity].
  - split; [reflexivity | rewrite Z.opp_involutive; reflexivity].
  - split; [reflexivity | rewrite float_opp_involutive; reflexivity].
  - split; [reflexivity | rewrite !float_opp_involutive; reflexivity].
Qed.

(** The float [2.5]. *)
Lemma unary_plus_and_double_minus_witness :
  SafeEvaluator.visit libm0 4 (UnaryOp UAdd (Constant (CFloat 2.5)))
  = OK (VFloat 2.5)
  /\ SafeEvaluator.visit libm0 6
       (UnaryOp USub (UnaryOp USub (Constant (CFloat 2.5))))
     = OK (VFloat 2.5).
Proof.
  apply (unary_plus_and_double_minus libm0 2 (Constant (CFloat 2.5))
           (VFloat 2.5));
    reflexivity.
Defined.

(* ------------------------------------------------------------------ *)
(** * Whitespace around an expression, carets inside it *)

Section Whitespace.

Import str.

Lemma diverge_drop_prefix (a b s : string) :
  diverge a b = true -> drop_prefix a (b ++ s) = None.
Proof.
  revert b; induction a as [|x a IH]; intros [|y b] H; simpl in H;
    try discriminate H.
  simpl; destruct (Ascii.eqb x y); simpl in H;
    [apply IH; exact H | reflexivity].
Qed.

Lemma drop_char_first (chars : list string) (w s : string) :
  (forall a, In a chars -> a = w \/ diverge a w = true) ->
  In w chars -> drop_char chars (w ++ s) = Some s.
Proof.
  induction chars as [|a chars IH]; intros H Hin; [contradiction Hin|].
  simpl; destruct (H a (or_introl eq_refl)) as [->|Hd].
  - rewrite drop_prefix_append; reflexivity.
  - rewrite (diverge_drop_prefix _ _ _ Hd).
    apply IH; [intros a' Ha'; apply H; right; exact Ha'|].
    destruct Hin as [->|Hin]; [|exact Hin].
    assert (F : forall u, diverge u u = false).
    { clear; induction u as [|c u IHu]; [reflexivity|].
      simpl; rewrite Ascii.eqb_refl; exact IHu. }
    rewrite F in Hd; discriminate Hd.
Qed.

Lemma prefix_free_drop_char (chars : list string) (w s : string) :
  prefix_free chars = true -> In w chars ->
  drop_char chars (w ++ s) = Some s.
Proof.
  intros Hp Hin; apply drop_char_first; [|exact Hin].
  intros a Ha; unfold prefix_free in Hp.
  rewrite forallb_forall in Hp; specialize (Hp a Ha).
  rewrite forallb_forall in Hp; specialize (Hp w Hin).
  apply orb_true_iff in Hp; destruct Hp as [Hp|Hp];
    [left; apply String.eqb_eq; exact Hp | right; exact Hp].
Qed.

Lemma drop_char_empty (chars : list string) :
  Forall (fun w => w <> "") chars -> drop_char chars "" = None.
Proof.
  intros H; induction H as [|w chars Hw _ IH]; simpl; [reflexivity|].
  destruct w; [contradiction Hw; reflexivity | exact IH].
Qed.

(** With fuel for every character, more fuel changes nothing. *)
Lemma lstrip_from_fuel (chars : list string) :
  Forall (fun w => w <> "") chars ->
  forall fuel1 fuel2 s,
    length s <= fuel1 -> length s <= fuel2 ->
    lstrip_from fuel1 chars s = lstrip_from fuel2 chars s.
Proof.
  intros Hne.
  assert (Z : forall fuel s, length s = 0 -> lstrip_from fuel chars s = s).
  { intros [|fuel] [|c s] H; try discriminate H; [reflexivity|].
    simpl; rewrite (drop_char_empty _ Hne); reflexivity. }
  induction fuel1 as [|fuel1 IH]; intros fuel2 s H1 H2.
  - rewrite !Z by lia; reflexivity.
  - destruct fuel2 as [|fuel2]; [rewrite !Z by lia; reflexivity|].
    simpl; destruct (drop_char chars s) as [r|] eqn:E; [|reflexivity].
    destruct (drop_char_Some _ _ _ E) as [w [Hin ->]].
    rewrite length_append in H1, H2.
    assert (w <> "") by (rewrite Forall_forall in Hne; apply Hne, Hin).
    destruct w; [contradiction|]; simpl in H1, H2.
    apply IH; lia.
Qed.

(** A run of the characters in front is dropped whole. *)
Lemma lstrip_from_run_app (chars : list string) (l : string) :
  prefix_free chars = true ->
  Forall (fun w => w <> "") chars ->
  run chars l ->
  forall fuel t,
    length (l ++ t) <= fuel ->
    lstrip_from fuel chars (l ++ t) = lstrip_from (length t) chars t.
Proof.
  intros Hp Hne Hl; induction Hl as [|w s Hin Hs IH]; intros fuel t Hf.
  - apply lstrip_from_fuel; [exact Hne | exact Hf | apply le_n].
  - rewrite append_assoc in Hf |- *.
    assert (w <> "") by (rewrite Forall_forall in Hne; apply Hne, Hin).
    destruct fuel as [|fuel];
      [rewrite length_append in Hf; destruct w;
       [contradiction | simpl in Hf; lia]|].
    simpl; rewrite (prefix_free_drop_char _ _ _ Hp Hin).
    apply IH.
    rewrite length_append in Hf; destruct w; [contradiction|].
    simpl in Hf; lia.
Qed.

Lemma run_reversed (chars : list string) (r : string) :
  run chars r -> run (map reverse chars) (reverse r).
Proof.
  intros H; induction H as [|w s Hin Hs IH]; [apply run_nil|].
  rewrite reverse_append; apply run_app; [exact IH|].
  rewrite <- (append_nil_r (reverse w)).
  apply run_cons; [apply in_map; exact Hin | apply run_nil].
Qed.

Lemma whitespace_prefix_free : prefix_free whitespace = true.
Proof. vm_compute; reflexivity. Qed.

Lemma reversed_whitespace_prefix_free :
  prefix_free (map reverse whitespace) = true.
Proof. vm_compute; reflexivity. Qed.

Lemma whitespace_inner_bytes_apart : inner_bytes_apart whitespace = true.
Proof. vm_compute; reflexivity. Qed.

Lemma lstrip_blank (l t : string) : blank l -> lstrip (l ++ t) = lstrip t.
Proof.
  intros Hl; unfold lstrip.
  apply lstrip_from_run_app;
    [apply whitespace_prefix_free | apply whitespace_not_empty
    | exact Hl | apply le_n].
Qed.

Lemma rstrip_blank (t r : string) : blank r -> rstrip (t ++ r) = rstrip t.
Proof.
  intros Hr; unfold rstrip; f_equal.
  rewrite reverse_append, <- (length_reverse t).
  apply lstrip_from_run_app;
    [apply reversed_whitespace_prefix_free
    | apply reversed_whitespace_not_empty
    | apply run_reversed; exact Hr|].
  rewrite <- reverse_append, length_reverse; apply le_n.
Qed.

(** Where two splits of one string meet. *)
Lemma append_meet (t r w x : string) :
  t ++ r = w ++ x ->
  (exists y, t = w ++ y)
  \/ (exists c v, w = t ++ String c v /\ r = String c v ++ x).
Proof.
  revert w; induction t as [|a t IH]; intros [|b w] H; simpl in H.
  - left; exists ""; reflexivity.
  - right; exists b, w; split; [reflexivity | exact H].
  - left; exists (String a t); reflexivity.
  - injection H as -> H; destruct (IH w H) as [[y ->]|[c [v [-> ->]]]].
    + left; exists y; reflexivity.
    + right; exists c, v; split; reflexivity.
Qed.

(** A run after a string that starts with none of the characters makes
    no character with the end of the string. *)
Lemma drop_char_before_run (chars : list string) (t r : string) :
  inner_bytes_apart chars = true ->
  Forall (fun w => w <> "") chars ->
  t <> "" ->
  drop_char chars t = None ->
  run chars r ->
  drop_char chars (t ++ r) = None.
Proof.
  intros Hi Hne Ht Hd Hr.
  destruct (drop_char chars (t ++ r)) as [x|] eqn:E; [exfalso|reflexivity].
  destruct (drop_char_Some _ _ _ E) as [w [Hin Hw]].
  destruct (append_meet _ _ _ _ Hw) as [[y Hy]|[c [v [Hwt Hrv]]]];
    [exact (drop_char_None _ _ Hd w y Hin Hy)|].
  destruct t as [|a t]; [contradiction Ht; reflexivity|].
  (* [c] is a byte of [w] after the first, and the first of [r] *)
  rewrite Hrv in Hr.
  assert (Hs : exists w2, In w2 chars /\ starts_with_byte c w2 = true).
  { inversion Hr as [Hn | w2 s2 Hin2 Hs2 Hn].
    assert (w2 <> "") by (rewrite Forall_forall in Hne; apply Hne, Hin2).
    destruct w2 as [|c2 w2]; [contradiction|].
    injection Hn as -> _; exists (String c w2); split; [exact Hin2|].
    simpl; apply Ascii.eqb_refl. }
  destruct Hs as [w2 [Hin2 Hs2]].
  unfold inner_bytes_apart in Hi; rewrite forallb_forall in Hi.
  specialize (Hi w Hin); rewrite Hwt in Hi; simpl in Hi.
  rewrite forallb_forall in Hi.
  assert (Hc : In c (list_ascii_of_string (t ++ String c v)))
    by (rewrite list_of_append; apply in_or_app; right; left; reflexivity).
  specialize (Hi c Hc); apply negb_true_iff in Hi.
  assert (Hex : existsb (starts_with_byte c) chars = true)
    by (apply existsb_exists; exists w2; split; assumption).
  rewrite Hex in Hi; discriminate Hi.
Qed.

Lemma lstrip_from_None (chars : list string) (fuel : nat) (s : string) :
  drop_char chars s = None -> lstrip_from fuel chars s = s.
Proof. intros H; destruct fuel; simpl; [|rewrite H]; reflexivity. Qed.

(** [strip] sees nothing of the whitespace around a string. *)
Lemma strip_blank (l s r : string) :
  blank l -> blank r -> strip (l ++ s ++ r) = strip s.
Proof.
  intros Hl Hr; unfold strip; rewrite (lstrip_blank _ _ Hl).
  destruct (lstrip_from_run whitespace (length s) s) as [l1 [Hl1 Hs]].
  fold (lstrip s) in Hs.
  assert (Nt : drop_char whitespace (lstrip s) = None)
    by (apply lstrip_from_done; [apply whitespace_not_empty | apply le_n]).
  rewrite Hs at 1; rewrite append_assoc, (lstrip_blank _ _ Hl1).
  destruct (string_dec (lstrip s) "") as [Et|Et].
  - rewrite Et; simpl.
    rewrite <- (append_nil_r r), (lstrip_blank _ _ Hr); reflexivity.
  - unfold lstrip at 1.
    rewrite lstrip_from_None;
      [apply rstrip_blank; exact Hr|].
    apply drop_char_before_run;
      [apply whitespace_inner_bytes_apart | apply whitespace_not_empty
      | exact Et | exact Nt | exact Hr].
Qed.

Lemma caret_to_power_app (a b : string) :
  caret_to_power (a ++ b) = caret_to_power a ++ caret_to_power b.
Proof.
  induction a as [|c a IH]; [reflexivity|].
  simpl; destruct (Ascii.eqb c "^"); simpl; rewrite IH; reflexivity.
Qed.

Lemma whitespace_has_no_caret :
  Forall (fun w => caret_to_power w = w) whitespace.
Proof. repeat (apply Forall_cons; [reflexivity|]); apply Forall_nil. Qed.

Lemma caret_to_power_blank (l : string) : blank l -> caret_to_power l = l.
Proof.
  intros H; induction H as [|w s Hin Hs IH]; [reflexivity|].
  rewrite caret_to_power_app, IH; f_equal.
  pose proof whitespace_has_no_caret as F; rewrite Forall_forall in F.
  apply F, Hin.
Qed.

Lemma caret_to_power_idempotent (s : string) :
  caret_to_power (caret_to_power s) = caret_to_power s.
Proof.
  induction s as [|c s IH]; [reflexivity|].
  simpl; destruct (Ascii.eqb c "^") eqn:E; simpl;
    [|rewrite E]; rewrite IH; reflexivity.
Qed.

Lemma caret_to_power_no_caret (s : string) :
  ~ In "^"%char (list_ascii_of_string (caret_to_power s)).
Proof.
  induction s as [|c s IH]; simpl; [exact (fun H => H)|].
  destruct (Ascii.eqb_spec c "^") as [->|Hc]; simpl.
  - intros [H|[H|H]]; [discriminate H | discriminate H | exact (IH H)].
  - intros [H|H]; [exact (Hc H) | exact (IH H)].
Qed.

Lemma preprocess_blank (l s r : string) :
  blank l -> blank r ->
  preprocess_expression (l ++ s ++ r) = preprocess_expression s.
Proof.
  intros Hl Hr; unfold preprocess_expression; rewrite !replace_caret.
  rewrite !caret_to_power_app.
  rewrite (caret_to_power_blank _ Hl), (caret_to_power_blank _ Hr).
  apply strip_blank; assumption.
Qed.

Lemma preprocess_strip (text : string) :
  preprocess_expression (strip text) = preprocess_expression text.
Proof.
  destruct (strip_spec text) as [l [r [E [Hl [Hr _]]]]].
  rewrite E at 2; symmetry; apply preprocess_blank; assumption.
Qed.

End Whitespace.

Lemma preprocess_blank_evaluate (h : host) (l s r : string) :
  blank l -> blank r ->
  preprocess_expression (l ++ s ++ r) = preprocess_expression s
  /\ evaluate_expression h (l ++ s ++ r) = evaluate_expression h s.
Proof.
  intros Hl Hr; pose proof (preprocess_blank l s r Hl Hr) as E.
  split; [exact E|].
  unfold evaluate_expression; rewrite E; reflexivity.
Qed.

(** X13 -- Whitespace around an expression changes nothing: with any run
    of whitespace characters in front of it and any after it, the
    preprocessor returns the same text, so [evaluate_expression] returns
    or raises the same, on every host. *)
Theorem surrounding_whitespace_is_ignored (h : host) (l s r : string) :
  blank l -> blank r ->
  preprocess_expression (l ++ s ++ r) = preprocess_expression s
  /\ evaluate_expression h (l ++ s ++ r) = evaluate_expression h s.
Proof. exact (preprocess_blank_evaluate h l s r). Qed.

(** A tab and a space in front of ["2 + 3"], a line break after it. *)
Lemma surrounding_whitespace_is_ignored_witness :
  evaluate_expression (cpython libm0)
    (String "009" " " ++ "2 + 3" ++ String "010" "")
  = evaluate_expression (cpython libm0) "2 + 3".
Proof.
  refine (proj2 (surrounding_whitespace_is_ignored (cpython libm0)
                   (String "009" " ") "2 + 3" (String "010" "") _ _)).
  - apply (run_cons str.whitespace (String "009" "") " ");
      [left; reflexivity|].
    apply (run_cons str.whitespace " " "");
      [do 9 right; left; reflexivity | apply run_nil].
  - apply (run_cons str.whitespace (String "010" "") "");
      [right; left; reflexivity | apply run_nil].
Defined.

(** X14 -- The caret and the power operator are interchangeable, on
    every input and every host: writing [**] for every [^] of a text
    changes neither what the preprocessor returns nor what
    [evaluate_expression] returns or raises.  And no caret is ever left
    in the text handed to the parser, so Python's own meaning of [^]
    cannot be reached. *)
Theorem caret_and_power_are_interchangeable (h : host) (s : string) :
  preprocess_expression (caret_to_power s) = preprocess_expression s
  /\ evaluate_expression h (caret_to_power s) = evaluate_expression h s
  /\ ~ In "^"%char (list_ascii_of_string (preprocess_expression s)).
Proof.
  assert (E : preprocess_expression (caret_to_power s)
              = preprocess_expression s).
  { unfold preprocess_expression.
    rewrite !replace_caret, caret_to_power_idempotent; reflexivity. }
  split; [exact E|split].
  - unfold evaluate_expression; rewrite E; reflexivity.
  - unfold preprocess_expression; rewrite replace_caret.
    destruct (strip_spec (caret_to_power s)) as [l [r [D _]]].
    intros H; apply (caret_to_power_no_caret s).
    rewrite D, !list_of_append.
    apply in_or_app; right; apply in_or_app; left; exact H.
Qed.

Lemma repl_loop_Line (c : console) (h : host) (text : string)
    (rest : list input_event) :
  repl_loop c h (Line text :: rest)
  = Prompt "calc> " ::
    if (str.strip text =? "")%string then repl_loop c h rest
    else if existsb (String.eqb (lower (str.strip text))) ["exit"; "quit"]
         then []
         else
           match evaluate_and_format c h (str.strip text) with
           | OK printed => Stdout printed
           | Raise exc => Stdout ("Ошибка: " ++ str_exception c exc)
           end :: repl_loop c h rest.
Proof. reflexivity. Qed.

Lemma strip_of_blank (s : string) : blank s -> str.strip s = "".
Proof.
  intros H; rewrite <- (append_nil_r s).
  change (s ++ "") with (s ++ "" ++ "").
  rewrite (strip_blank s "" "" H (run_nil _)); reflexivity.
Qed.

(** X15 -- A blank input, made of whitespace only, is the empty input:
    the preprocessor returns the empty text, [evaluate_expression]
    answers as it does for the empty text, which on CPython is the
    [ValueError] of a syntax error, and the interactive loop skips the
    line without evaluating or printing anything. *)
Theorem blank_input_is_empty_input
    (c : console) (h : host) (s : string) (rest : list input_event) :
  blank s ->
  preprocess_expression s = ""
  /\ evaluate_expression h s = evaluate_expression h ""
  /\ (forall m, is_syntax_error (evaluate_expression (cpython m) s))
  /\ repl_loop c h (Line s :: rest) = Prompt "calc> " :: repl_loop c h rest.
Proof.
  intros H.
  assert (E : preprocess_expression s = "").
  { rewrite <- (append_nil_r s).
    change (s ++ "") with (s ++ "" ++ "").
    rewrite (preprocess_blank s "" "" H (run_nil _)); reflexivity. }
  assert (E' : forall h', evaluate_expression h' s = evaluate_expression h' "")
    by (intros h'; unfold evaluate_expression; rewrite E; reflexivity).
  split; [exact E|split; [apply E'|split]].
  - intros m; rewrite E'; exists "invalid syntax"; reflexivity.
  - rewrite repl_loop_Line, (strip_of_blank s H); reflexivity.
Qed.

(** Three spaces. *)
Lemma blank_input_is_empty_input_witness :
  preprocess_expression "   " = ""
  /\ evaluate_expression (cpython libm0) "   "
     = evaluate_expression (cpython libm0) ""
  /\ (forall m, is_syntax_error (evaluate_expression (cpython m) "   "))
  /\ repl_loop console0 (cpython libm0) [Line "   "]
     = Prompt "calc> " :: repl_loop console0 (cpython libm0) [].
Proof.
  apply (blank_input_is_empty_input console0 (cpython libm0) "   " []).
  apply (run_cons str.whitespace " " "  ");
    [do 9 right; left; reflexivity|].
  apply (run_cons str.whitespace " " " ");
    [do 9 right; left; reflexivity|].
  apply (run_cons str.whitespace " " "");
    [do 9 right; left; reflexivity | apply run_nil].
Defined.

(* ------------------------------------------------------------------ *)
(** * The callers *)

Lemma main_with_arguments (c : console) (h : host) (prog a : string)
    (args : list string) (inputs : list input_event) :
  main c h (prog :: a :: args) inputs
  = match evaluate_and_format c h (String.concat " " (a :: args)) with
    | OK printed => ([Stdout printed], 0%Z)
    | Raise exc => ([Stderr ("Ошибка: " ++ str_exception c exc)], 1%Z)
    end.
Proof. reflexivity. Qed.

(** X16 -- The one-shot mode.  With arguments after the program's name,
    [main] evaluates their join by single spaces and nothing else: it
    reads no input and writes no prompt; it writes one line, the result
    on the standard output with status [0] when evaluation and printing
    succeed, and otherwise the error on the standard error with status
    [1], a [ValueError] by its message alone; and whitespace around the
    expression changes neither the line nor the status. *)
Theorem one_shot_mode
    (c : console) (h : host) (prog a : string) (args : list string)
    (inputs : list input_event) :
  main c h (prog :: a :: args) inputs
  = main c h [prog; String.concat " " (a :: args)] []
  /\ ((exists printed,
          evaluate_and_format c h (String.concat " " (a :: args)) = OK printed
          /\ main c h (prog :: a :: args) inputs = ([Stdout printed], 0%Z))
      \/ (exists e,
             evaluate_and_format c h (String.concat " " (a :: args))
             = Raise e
             /\ main c h (prog :: a :: args) inputs
                = ([Stderr ("Ошибка: " ++ str_exception c e)], 1%Z)))
  /\ (forall msg,
         evaluate_expression h (String.concat " " (a :: args))
         = Raise (ValueError msg) ->
         main c h (prog :: a :: args) inputs
         = ([Stderr ("Ошибка: " ++ msg)], 1%Z))
  /\ (forall l r,
         blank l -> blank r ->
         main c h [prog; l ++ String.concat " " (a :: args) ++ r] inputs
         = main c h (prog :: a :: args) inputs).
Proof.
  rewrite !main_with_arguments.
  change (String.concat " " [String.concat " " (a :: args)])
    with (String.concat " " (a :: args)).
  split; [reflexivity|split; [|split]].
  - destruct (evaluate_and_format c h (String.concat " " (a :: args)))
      as [printed|e];
      [left; exists printed | right; exists e]; split; reflexivity.
  - intros msg E; unfold evaluate_and_format; rewrite E; reflexivity.
  - intros l r Hl Hr; rewrite main_with_arguments.
    change (String.concat " " [l ++ String.concat " " (a :: args) ++ r])
      with (l ++ String.concat " " (a :: args) ++ r).
    unfold evaluate_and_format.
    rewrite (proj2 (preprocess_blank_evaluate h l _ r Hl Hr)); reflexivity.
Qed.

Ltac letter c H :=
  destruct c as [[] [] [] [] [] [] [] []];
  vm_compute in H; try discriminate H; clear H.

(** A word that is [exit] or [quit] in any letter case has no whitespace
    for [strip] to take off. *)
Lemma strip_exit_command (cmd : string) :
  In (lower cmd) ["exit"; "quit"] -> str.strip cmd = cmd.
Proof.
  intros [H|[H|[]]];
    destruct cmd as [|c1 [|c2 [|c3 [|c4 [|c5 cmd]]]]];
    try discriminate H;
    injection H as H1 H2 H3 H4;
    letter c1 H1; letter c2 H2; letter c3 H3; letter c4 H4;
    vm_compute; reflexivity.
Qed.

Lemma repl_loop_exit (c : console) (h : host) (l cmd r : string)
    (rest : list input_event) :
  blank l -> blank r -> In (lower cmd) ["exit"; "quit"] ->
  repl_loop c h (Line (l ++ cmd ++ r) :: rest) = [Prompt "calc> "].
Proof.
  intros Hl Hr Hc.
  rewrite repl_loop_Line, (strip_blank l cmd r Hl Hr),
    (strip_exit_command cmd Hc).
  assert (N : (cmd =? "")%string = false)
    by (destruct cmd; [destruct Hc as [H|[H|[]]]; discriminate H|reflexivity]).
  rewrite N.
  assert (X : existsb (String.eqb (lower cmd)) ["exit"; "quit"] = true).
  { apply existsb_exists; exists (lower cmd); split;
      [exact Hc | apply String.eqb_refl]. }
  rewrite X; reflexivity.
Qed.

(** What follows an input at which the loop stops is not read. *)
Lemma repl_loop_stops (c : console) (h : host) (x : input_event) :
  (forall rest, repl_loop c h (x :: rest) = repl_loop c h [x]) ->
  forall before rest,
    repl_loop c h (before ++ x :: rest) = repl_loop c h (before ++ [x]).
Proof.
  intros Hx before rest; induction before as [|a before IH]; simpl app.
  - apply Hx.
  - destruct a as [text|]; [|reflexivity].
    rewrite !repl_loop_Line, IH; reflexivity.
Qed.

(** X17 -- The interactive loop ends at the first line that is [exit] or
    [quit], in any letter case and with any whitespace around it, at the
    first interrupt, or at the end of the input.  An exit command is not
    evaluated and nothing is printed for it; whatever input follows it or
    an interrupt is never read, and an interrupt ends the session as the
    end of the input does. *)
Theorem repl_stops_at_exit_or_interrupt
    (c : console) (h : host) (l cmd r : string) :
  blank l -> blank r -> In (lower cmd) ["exit"; "quit"] ->
  (forall rest,
      repl_loop c h (Line (l ++ cmd ++ r) :: rest) = [Prompt "calc> "])
  /\ (forall before rest,
         repl c h (before ++ Line (l ++ cmd ++ r) :: rest)
         = repl c h (before ++ [Line (l ++ cmd ++ r)]))
  /\ (forall before rest,
         repl c h (before ++ KeyboardInterrupt :: rest) = repl c h before).
Proof.
  intros Hl Hr Hc; split; [|split].
  - intros rest; apply repl_loop_exit; assumption.
  - intros before rest; unfold repl; f_equal.
    apply repl_loop_stops; intros rest'.
    rewrite !(repl_loop_exit c h l cmd r _ Hl Hr Hc); reflexivity.
  - intros before rest; unfold repl; f_equal.
    rewrite (repl_loop_stops c h KeyboardInterrupt (fun _ => eq_refl)).
    induction before as [|a before IH]; [reflexivity|].
    destruct a as [text|]; [|reflexivity].
    simpl app; rewrite !repl_loop_Line, IH; reflexivity.
Qed.

(** [" Quit"] followed by a line break. *)
Lemma repl_stops_at_exit_or_interrupt_witness :
  repl console0 (cpython libm0)
    [Line "1 + 1"; Line (" " ++ "Quit" ++ String "010" ""); Line "2 + 2"]
  = repl console0 (cpython libm0)
      [Line "1 + 1"; Line (" " ++ "Quit" ++ String "010" "")].
Proof.
  refine (proj1 (proj2 (repl_stops_at_exit_or_interrupt
                          console0 (cpython libm0)
                          " " "Quit" (String "010" "") _ _ _))
            [Line "1 + 1"] [Line "2 + 2"]).
  - apply (run_cons str.whitespace " " "");
      [do 9 right; left; reflexivity | apply run_nil].
  - apply (run_cons str.whitespace (String "010" "") "");
      [right; left; reflexivity | apply run_nil].
  - right; left; reflexivity.
Defined.

(** One frame more changes nothing but a [RecursionError]. *)
Lemma evaluate_one_frame_up (h : host) (s s' : string) (r : result value) :
  preprocess_expression s' = preprocess_expression s ->
  evaluate_expression (one_frame_down h) s = r ->
  r <> Raise RecursionError ->
  evaluate_expression h s' = r.
Proof.
  unfold evaluate_expression; intros -> E Hr.
  change (ast_parse (one_frame_down h)) with (ast_parse h) in E.
  change (math (one_frame_down h)) with (math h) in E.
  change (recursion_limit (one_frame_down h))
    with (pred (recursion_limit h)) in E.
  destruct (ast_parse h (preprocess_expression s)) as [tree|e];
    [|exact E].
  destruct (recursion_limit h) as [|n]; [exact E|].
  apply visit_one_more_frame; assumption.
Qed.

(** X18 -- The interactive loop and the one-shot mode agree.  For a
    line that is neither blank nor an exit command the loop prints one
    line and goes on; and unless that line reports a [RecursionError],
    for which the loop has one frame less than [main], it is the line
    [main] writes when given the same text as its argument: on the
    standard output with status [0], or on the standard error with status
    [1]. *)
Theorem repl_agrees_with_one_shot
    (c : console) (h : host) (prog text : string)
    (rest : list input_event) :
  str.strip text <> "" ->
  ~ In (lower (str.strip text)) ["exit"; "quit"] ->
  exists printed,
    repl_loop c (one_frame_down h) (Line text :: rest)
    = Prompt "calc> " :: Stdout printed
      :: repl_loop c (one_frame_down h) rest
    /\ (main c h [prog; text] [] = ([Stdout printed], 0%Z)
        \/ main c h [prog; text] [] = ([Stderr printed], 1%Z)
        \/ printed = "Ошибка: " ++ str_exception c RecursionError).
Proof.
  intros Hb Hx.
  assert (B : (str.strip text =? "")%string = false)
    by (apply String.eqb_neq; exact Hb).
  assert (X : existsb (String.eqb (lower (str.strip text))) ["exit"; "quit"]
              = false).
  { destruct (existsb _ _) eqn:E; [|reflexivity].
    apply existsb_exists in E; destruct E as [w [Hin Hw]].
    apply String.eqb_eq in Hw; subst w; contradiction. }
  assert (Up : forall r,
             evaluate_and_format c (one_frame_down h) (str.strip text) = r ->
             r <> Raise RecursionError ->
             evaluate_and_format c h text = r).
  { unfold evaluate_and_format; intros r E Hr.
    destruct (evaluate_expression (one_frame_down h) (str.strip text))
      as [v|e] eqn:Ev.
    - rewrite (evaluate_one_frame_up h (str.strip text) text (OK v)
                 (eq_sym (preprocess_strip text)) Ev)
        by discriminate.
      exact E.
    - simpl in E; subst r.
      rewrite (evaluate_one_frame_up h (str.strip text) text (Raise e)
                 (eq_sym (preprocess_strip text)) Ev)
        by (intros N; injection N as ->; apply Hr; reflexivity).
      reflexivity. }
  rewrite repl_loop_Line, B, X, main_with_arguments.
  change (String.concat " " [text]) with text.
  destruct (evaluate_and_format c (one_frame_down h) (str.strip text))
    as [printed|e] eqn:E.
  - exists printed; split; [reflexivity|].
    rewrite (Up (OK printed) eq_refl) by discriminate.
    left; reflexivity.
  - exists ("Ошибка: " ++ str_exception c e); split; [reflexivity|].
    assert (D : e = RecursionError \/ e <> RecursionError)
      by (destruct e; (left; reflexivity) || (right; discriminate)).
    destruct D as [->|D]; [right; right; reflexivity|].
    rewrite (Up (Raise e) eq_refl)
      by (intros N; injection N as N; exact (D N)).
    right; left; reflexivity.
Qed.

(** [" 2 + 3 "] on CPython. *)
Lemma repl_agrees_with_one_shot_witness :
  exists printed,
    repl_loop console0 (one_frame_down (cpython libm0)) [Line " 2 + 3 "]
    = Prompt "calc> " :: Stdout printed
      :: repl_loop console0 (one_frame_down (cpython libm0)) []
    /\ (main console0 (cpython libm0) ["calc"; " 2 + 3 "] []
        = ([Stdout printed], 0%Z)
        \/ main console0 (cpython libm0) ["calc"; " 2 + 3 "] []
           = ([Stderr printed], 1%Z)
        \/ printed = "Ошибка: " ++ str_exception console0 RecursionError).
Proof.
  apply (repl_agrees_with_one_shot console0 (cpython libm0)
           "calc" " 2 + 3 " []).
  - vm_compute; intros H; discriminate H.
  - vm_compute; intros [H|[H|[]]]; discriminate H.
Defined.

(* ------------------------------------------------------------------ *)
(** * What [evaluate_expression] lets out *)

(** X19 -- The failures of [evaluate_expression], on every host.  A
    [SyntaxError] of the parser comes out as a [ValueError] whose message
    is the parser's behind a fixed prefix; anything else the parser raises
    comes out as it is; and after a successful parse what comes out is
    what the visit raises.  So, unless the C library raises one itself,
    no [SyntaxError] ever leaves [evaluate_expression], and every failure
    is a [ValueError], a [TypeError], an [OverflowError], a
    [RecursionError], an error of the C library or an error of the parser
    other than [SyntaxError]. *)
Theorem evaluate_expression_failures (h : host) (expression : string) :
  (forall msg,
      ast_parse h (preprocess_expression expression)
      = Raise (SyntaxError msg) ->
      evaluate_expression h expression
      = Raise (ValueError ("Синтаксическая ошибка: " ++ msg)))
  /\ (forall e,
         evaluate_expression h expression = Raise e ->
         evaluator_error (math h) e
         \/ (ast_parse h (preprocess_expression expression) = Raise e
             /\ forall msg, e <> SyntaxError msg))
  /\ ((forall x y msg,
          complex_pow (math h) x y <> Raise (SyntaxError msg)) ->
      forall msg, evaluate_expression h expression <> Raise (SyntaxError msg)).
Proof.
  assert (A : forall e,
             evaluate_expression h expression = Raise e ->
             evaluator_error (math h) e
             \/ (ast_parse h (preprocess_expression expression) = Raise e
                 /\ forall msg, e <> SyntaxError msg)).
  { unfold evaluate_expression; intros e E.
    destruct (ast_parse h (preprocess_expression expression)) as [tree|e'].
    - left; exact (visit_raises _ _ _ _ E).
    - destruct e'; injection E as <-;
        try (right; split; [reflexivity | intros msg' N; discriminate N]).
      left; left; eexists; reflexivity. }
  split; [|split; [exact A|]].
  - intros msg P; unfold evaluate_expression; rewrite P; reflexivity.
  - intros Hm msg E.
    destruct (A _ E) as [[[msg' N]|[N|[N|[N|[x [y N]]]]]]|[_ N]];
      try discriminate N;
      [exact (Hm x y msg N) | exact (N msg eq_refl)].
Qed.
